(** * RetroArch driver shims: the TinySoundFont MIDI driver and the win32 window wrapper

    A shallow embedding of [midi/drivers/tsf_midi.c] and
    [ui/drivers/win32/ui_win32_window.c].

    The C functions are written as computations in a small state-and-fault
    monad.  The state holds the heap of [tsf_midi_t] blocks handed out by
    [calloc] and the sequence of calls made into the external collaborators
    (the TinySoundFont engine, the lock library, the audio mixer, the C
    allocator).  A fault stands for undefined behaviour of the C program
    (a read through a null or released pointer, a read past the end of the
    event buffer, a release of a block that is not allocated). *)

From Stdlib Require Import ZArith List Bool Lia SpecFloat.
From stdpp Require Import base option list gmap strings.

Local Open Scope Z_scope.

(** ** C scalars *)

Module C.

(** The null pointer. *)
Definition NULL : Z := 0.

(** Conversion to [uint8_t]: reduction modulo 2^8. *)
Definition uint8 (z : Z) : Z := z mod 256.

(** Conversion to a 32-bit [int]: two's complement wrap-around. *)
Definition int32 (z : Z) : Z := (z + 2147483648) mod 4294967296 - 2147483648.

(** The [int] value of a C truth value. *)
Definition of_bool (b : bool) : Z := if b then 1 else 0.

(** [memcmp] on two byte sequences of the same length: zero when they
    agree, otherwise the difference of the first pair that differs. *)
Fixpoint memcmp (a b : list Z) : Z :=
  match a, b with
  | x :: a', y :: b' => if x =? y then memcmp a' b' else x - y
  | _, _ => 0
  end.

End C.

(** ** Single precision floats

    C [float] is IEEE 754 binary32: 24 bits of precision, exponents up to
    128.  Arithmetic is the round-to-nearest-even arithmetic of the
    standard library's specification of floats. *)

Module F32.

Definition prec : Z := 24.
Definition emax : Z := 128.

Definition t : Type := spec_float.

(** Conversion of an [int] to [float]. *)
Definition of_int (z : Z) : t := binary_normalize prec emax z 0 false.

Definition div (x y : t) : t := SFdiv prec emax x y.

Definition leb (x y : t) : bool := SFleb x y.

Definition zero : t := S754_zero false.
Definition one : t := S754_finite false 8388608 (-23).

End F32.

(** ** Data of the MIDI driver *)

(** [tsf_midi_t]: the driver handle.  [synth_lock] exists only in builds
    with [HAVE_THREADS]; builds without it never read the field. *)
Record tsf_midi_t := Build_tsf_midi_t {
  instance : Z;
  synth_lock : Z
}.

(** [midi_event_t]: [data] is the buffer the event's byte pointer points
    to, [data_size] the length the event announces. *)
Record midi_event_t := Build_midi_event_t {
  data : list Z;
  data_size : Z;
  delta_time : Z
}.

(** Midi channel message types. *)
Definition TSF_MIDI_NOTE_OFF : Z := 0x80.
Definition TSF_MIDI_NOTE_ON : Z := 0x90.
Definition TSF_MIDI_KEY_PRESSURE : Z := 0xA0.
Definition TSF_MIDI_CONTROL_CHANGE : Z := 0xB0.
Definition TSF_MIDI_PROGRAM_CHANGE : Z := 0xC0.
Definition TSF_MIDI_CHANNEL_PRESSURE : Z := 0xD0.
Definition TSF_MIDI_PITCH_BEND : Z := 0xE0.
Definition TSF_MIDI_SYSEX : Z := 0xF0.

(** Output modes of the engine ([enum TSFOutputMode]). *)
Inductive TSFOutputMode := TSF_STEREO_INTERLEAVED | TSF_STEREO_UNWEAVED | TSF_MONO.

(** Calls into the external collaborators, with their arguments.  A
    pointer argument is the address passed; [audio_mixer_play_synth] is
    always registered with the callback [tsf_synth]. *)
Inductive call :=
  | tsf_load_filename (filename : string)
  | tsf_set_output (f : Z) (outputmode : TSFOutputMode) (samplerate : Z) (global_gain_db : F32.t)
  | tsf_render_float (f : Z) (buffer : Z) (samples : Z) (flag_mixing : Z)
  | tsf_channel_set_presetnumber (f : Z) (channel preset_number flag_mididrums : Z)
  | tsf_channel_note_on (f : Z) (channel key : Z) (vel : F32.t)
  | tsf_channel_note_off (f : Z) (channel key : Z)
  | tsf_channel_set_pitchwheel (f : Z) (channel pitch_wheel : Z)
  | tsf_channel_midi_control (f : Z) (channel controller control_value : Z)
  | tsf_set_volume (f : Z) (global_gain : F32.t)
  | tsf_close (f : Z)
  | slock_new
  | slock_lock (lock : Z)
  | slock_unlock (lock : Z)
  | slock_free (lock : Z)
  | audio_mixer_play_synth (userdata : Z)
  | audio_driver_mixer_set_active
  | calloc (nmemb size : Z)
  | free (ptr : Z).

(** The calls that enter the synthesizer engine. *)
Definition is_synth_call (c : call) : bool :=
  match c with
  | tsf_load_filename _ | tsf_set_output _ _ _ _ | tsf_render_float _ _ _ _
  | tsf_channel_set_presetnumber _ _ _ _ | tsf_channel_note_on _ _ _ _
  | tsf_channel_note_off _ _ _ | tsf_channel_set_pitchwheel _ _ _
  | tsf_channel_midi_control _ _ _ _ | tsf_set_volume _ _ | tsf_close _ => true
  | _ => false
  end.

Definition synth_calls (l : list call) : list call := List.filter is_synth_call l.

(** ** State, faults and the monad *)

Record state := Build_state {
  heap : gmap Z tsf_midi_t;
  calls : list call
}.

Inductive fault :=
  | NullDereference
  | UseAfterFree
  | OutOfBounds
  | InvalidFree.

Inductive outcome (A : Type) :=
  | Done (a : A) (s : state)
  | Undefined (f : fault).
Arguments Done {A} a s.
Arguments Undefined {A} f.

Definition M (A : Type) : Type := state -> outcome A.

Definition ret {A} (a : A) : M A := fun s => Done a s.

Definition bind {A B} (m : M A) (k : A -> M B) : M B :=
  fun s => match m s with
           | Done a s' => k a s'
           | Undefined f => Undefined f
           end.

Definition undefined {A} (f : fault) : M A := fun _ => Undefined f.

Declare Scope tsf_scope.
Delimit Scope tsf_scope with tsf.
Notation "'let*' x ':=' m 'in' k" := (bind m (fun x => k))
  (at level 10, x name, m at level 100, k at level 200) : tsf_scope.
Notation "'exec' m 'in' k" := (bind m (fun _ => k))
  (at level 10, m at level 100, k at level 200) : tsf_scope.
Local Open Scope tsf_scope.

(** Record a call to an external collaborator. *)
Definition do_call (c : call) : M unit :=
  fun s => Done tt (Build_state (heap s) (calls s ++ [c])).

(** Read the [tsf_midi_t] block a handle points to. *)
Definition deref (d : Z) : M tsf_midi_t :=
  fun s => if d =? C.NULL then Undefined NullDereference
           else match heap s !! d with
                | Some h => Done h s
                | None => Undefined UseAfterFree
                end.

(** [event->data[i]]. *)
Definition event_data (event : midi_event_t) (i : nat) : M Z :=
  match data event !! i with
  | Some b => ret b
  | None => undefined OutOfBounds
  end.

(** The [n] bytes at [event->data + off]. *)
Definition event_bytes (event : midi_event_t) (off n : nat) : M (list Z) :=
  if (off + n <=? length (data event))%nat
  then ret (take n (drop off (data event)))
  else undefined OutOfBounds.

(** An event whose buffer holds the bytes it announces. *)
Definition event_ok (event : midi_event_t) : Prop :=
  0 <= data_size event <= Z.of_nat (length (data event)).

(** ** Memory and library primitives *)

(** [d->field = v] for the two fields of a freshly allocated block. *)
Definition store_instance (d : Z) (v : Z) : M unit :=
  fun s => if d =? C.NULL then Undefined NullDereference
           else match heap s !! d with
                | Some h => Done tt (Build_state (<[d := Build_tsf_midi_t v (synth_lock h)]> (heap s)) (calls s))
                | None => Undefined UseAfterFree
                end.

Definition store_synth_lock (d : Z) (v : Z) : M unit :=
  fun s => if d =? C.NULL then Undefined NullDereference
           else match heap s !! d with
                | Some h => Done tt (Build_state (<[d := Build_tsf_midi_t (instance h) v]> (heap s)) (calls s))
                | None => Undefined UseAfterFree
                end.

(** [free(d)] for a block of the heap. *)
Definition do_free (d : Z) : M unit :=
  fun s =>
    if d =? C.NULL then Done tt (Build_state (heap s) (calls s ++ [free d]))
    else match heap s !! d with
         | Some _ => Done tt (Build_state (delete d (heap s)) (calls s ++ [free d]))
         | None => Undefined InvalidFree
         end.

(** A [const char *] argument is [None] when the pointer is null. *)
Definition is_non_null (str : option string) : bool :=
  match str with Some _ => true | None => false end.

(** [struct string_list] as the sequence of its elements, each a string
    with its attribute. *)
Definition string_list : Type := list (string * Z).

(** Modelled from the spec: [string_list_append] of libretro-common's
    [lists/string_list.c], which is not among the sources; it adds the
    element, with its attribute, at the end of the list. *)
Definition string_list_append (l : string_list) (elem : string) (attr : Z)
  : string_list * bool :=
  (l ++ [(elem, attr)], true).

(** The fixed signature of the volume message, ["\x7F\x7F\x04\x01"]. *)
Definition volume_signature : list Z := [0x7F; 0x7F; 0x04; 0x01].

(** ** The host: what the surrounding frontend and libraries supply *)

Record host := Build_host {
  (** [settings->paths.directory_system] *)
  directory_system : string;
  (** [(int)av_info->timing.sample_rate] *)
  sample_rate : Z;
  (** [fill_pathname_join]: the joined path written to [sf2path] *)
  fill_pathname_join : string -> string -> string;
  (** the pointer [tsf_load_filename] returns for a path, [NULL] on failure *)
  load_result : string -> Z;
  (** the pointer [calloc] returns, [NULL] on failure *)
  calloc_result : Z;
  (** the pointer [slock_new] returns *)
  slock_new_result : Z;
  (** [sizeof(tsf_midi_t)] *)
  sizeof_tsf_midi_t : Z
}.

(** ** The MIDI driver *)

Section Driver.

(** Whether the build defines [HAVE_THREADS]. *)
Variable HAVE_THREADS : bool.

Variable env : host.

(** [TSF_MIDI_SYNTH_LOCK()] and [TSF_MIDI_SYNTH_UNLOCK()], expanded
    where [d] is in scope. *)
Definition TSF_MIDI_SYNTH_LOCK (d : Z) : M unit :=
  if HAVE_THREADS
  then let* h := deref d in do_call (slock_lock (synth_lock h))
  else ret tt.

Definition TSF_MIDI_SYNTH_UNLOCK (d : Z) : M unit :=
  if HAVE_THREADS
  then let* h := deref d in do_call (slock_unlock (synth_lock h))
  else ret tt.

Definition tsf_midi_get_avail_inputs (inputs : string_list) : string_list * bool :=
  (inputs, true).

Definition tsf_midi_get_avail_outputs (outputs : string_list) : string_list * bool :=
  let attr := 0 in
  let outputs := fst (string_list_append outputs "SF2" attr) in
  let outputs := fst (string_list_append outputs "sf2" attr) in
  let outputs := fst (string_list_append outputs "GM" attr) in
  let outputs := fst (string_list_append outputs "gm" attr) in
  (outputs, true).

Definition tsf_synth (p : Z) (buffer : Z) (num_frames : Z) (volume : F32.t) : M unit :=
  let d := p in
  exec TSF_MIDI_SYNTH_LOCK d in
  let* h := deref d in
  exec do_call (tsf_render_float (instance h) buffer (C.int32 num_frames) 1) in
  TSF_MIDI_SYNTH_UNLOCK d.

(** [calloc(sizeof(tsf_midi_t), 1)]: the host decides the pointer; a
    block that is handed out starts zeroed. *)
Definition do_calloc (nmemb size : Z) : M Z :=
  fun s =>
    let d := calloc_result env in
    let cs := calls s ++ [calloc nmemb size] in
    if d =? C.NULL then Done C.NULL (Build_state (heap s) cs)
    else Done d (Build_state (<[d := Build_tsf_midi_t 0 0]> (heap s)) cs).

Definition tsf_midi_init (input output : option string) : M Z :=
  if negb (is_non_null output) then ret C.NULL else
  let sf2path := fill_pathname_join env (directory_system env) "GM.SF2" in
  exec do_call (tsf_load_filename sf2path) in
  let instance := load_result env sf2path in
  if instance =? C.NULL then ret C.NULL else
  exec do_call (tsf_set_output instance TSF_STEREO_INTERLEAVED (sample_rate env) (F32.of_int 0)) in
  let* d := do_calloc (sizeof_tsf_midi_t env) 1 in
  exec store_instance d instance in
  exec (if HAVE_THREADS
        then exec do_call slock_new in store_synth_lock d (slock_new_result env)
        else ret tt) in
  exec do_call (audio_mixer_play_synth d) in
  exec do_call audio_driver_mixer_set_active in
  ret d.

Definition tsf_midi_free (p : Z) : M unit :=
  let d := p in
  if negb (d =? C.NULL) then
    let* h := deref d in
    exec do_call (tsf_close (instance h)) in
    exec (if HAVE_THREADS
          then let* h := deref d in do_call (slock_free (synth_lock h))
          else ret tt) in
    do_free d
  else ret tt.

Definition tsf_midi_set_input (p : Z) (input : option string) : bool := false.

Definition tsf_midi_set_output (p : Z) (output : option string) : bool := true.

Definition tsf_midi_read (p : Z) (event : midi_event_t) : bool := false.

(** The [TSF_MIDI_SYSEX] case of the switch. *)
Definition sysex_case (d : Z) (event : midi_event_t) : M unit :=
  if data_size event =? 8 then
    let* bytes := event_bytes event 1 4 in
    if negb (C.memcmp bytes volume_signature =? 0) then ret tt else
    let* d6 := event_data event 6 in
    let* d5 := event_data event 5 in
    let* h := deref d in
    do_call (tsf_set_volume (instance h)
               (F32.div
                  (F32.of_int (C.int32 (Z.lor (Z.shiftl (Z.land d6 0x7F) 7) (Z.land d5 0x7F))))
                  (F32.of_int 16383)))
  else ret tt.

(** The switch on [event->data[0] & 0xf0]. *)
Definition dispatch (d : Z) (event : midi_event_t) (status channel p1 p2 : Z) : M unit :=
  if status =? TSF_MIDI_PROGRAM_CHANGE then
    let* h := deref d in
    do_call (tsf_channel_set_presetnumber (instance h) channel p1 (C.of_bool (channel =? 9)))
  else if status =? TSF_MIDI_NOTE_ON then
    let* h := deref d in
    do_call (tsf_channel_note_on (instance h) channel p1 (F32.div (F32.of_int p2) (F32.of_int 127)))
  else if status =? TSF_MIDI_NOTE_OFF then
    let* h := deref d in
    do_call (tsf_channel_note_off (instance h) channel p1)
  else if status =? TSF_MIDI_PITCH_BEND then
    let* h := deref d in
    do_call (tsf_channel_set_pitchwheel (instance h) channel
               (C.int32 (Z.lor (Z.shiftl p2 7) p1)))
  else if status =? TSF_MIDI_CONTROL_CHANGE then
    let* h := deref d in
    do_call (tsf_channel_midi_control (instance h) channel p1 p2)
  else if status =? TSF_MIDI_SYSEX then
    sysex_case d event
  else ret tt.

Definition tsf_midi_write (p : Z) (event : midi_event_t) : M bool :=
  let d := p in
  if data_size event <? 2 then ret false else
  let* d0 := event_data event 0 in
  let* d1 := event_data event 1 in
  let channel := C.uint8 (Z.land d0 0x0f) in
  let p1 := C.uint8 (Z.land d1 0x7f) in
  let* p2 := (if 3 <=? data_size event
              then let* d2 := event_data event 2 in ret (C.uint8 (Z.land d2 0x7f))
              else ret 0) in
  exec TSF_MIDI_SYNTH_LOCK d in
  exec dispatch d event (Z.land d0 0xf0) channel p1 p2 in
  exec TSF_MIDI_SYNTH_UNLOCK d in
  ret true.

Definition tsf_midi_flush (p : Z) : bool := true.

End Driver.

(** ** The win32 window wrapper *)

Module Win32.

(** The two [nCmdShow] values the wrapper passes ([windows.h]). *)
Inductive nCmdShow := SW_HIDE | SW_SHOWNORMAL.

Record ui_window_win32_t := Build_ui_window_win32_t { hwnd : Z }.

(** Calls into the windowing system. *)
Inductive os_call :=
  | DestroyWindow (hWnd : Z)
  | SetFocus (hWnd : Z)
  | ShowWindow (hWnd : Z) (cmd : nCmdShow)
  | SetWindowText (hWnd : Z) (lpString : string).

Section Window.

(** The body of [ui_window_win32_set_visible] reads an identifier
    [visible]; the function declares no parameter or local of that
    name, so its value comes from outside the function. *)
Variable visible : bool.

Definition ui_window_win32_destroy (data : ui_window_win32_t) : list os_call :=
  let window := data in
  [DestroyWindow (hwnd window)].

Definition ui_window_win32_set_focused (data : ui_window_win32_t) : list os_call :=
  let window := data in
  [SetFocus (hwnd window)].

Definition ui_window_win32_set_visible (data : ui_window_win32_t) (set_visible : bool)
  : list os_call :=
  let window := data in
  [ShowWindow (hwnd window) (if visible then SW_SHOWNORMAL else SW_HIDE)].

Definition ui_window_win32_set_title (data : ui_window_win32_t) (buf : string)
  : list os_call :=
  let window := data in
  [SetWindowText (hwnd window) buf].

End Window.

End Win32.

(** * Vocabulary of the statements *)

(** A handle is live when it is not null and the heap holds its block. *)
Definition live (s : state) (d : Z) (h : tsf_midi_t) : Prop :=
  d <> C.NULL /\ heap s !! d = Some h.

(** The state after some more calls. *)
Definition emit (s : state) (cs : list call) : state :=
  Build_state (heap s) (calls s ++ cs).

(** The calls of a critical section around [body]. *)
Definition locked (HAVE_THREADS : bool) (h : tsf_midi_t) (body : list call) : list call :=
  (if HAVE_THREADS then [slock_lock (synth_lock h)] else [])
  ++ body
  ++ (if HAVE_THREADS then [slock_unlock (synth_lock h)] else []).

(** The value of [p2]: the third byte masked to seven bits, or zero when
    the event has no third byte. *)
Definition third_byte (event : midi_event_t) : Z :=
  if 3 <=? data_size event
  then match data event !! 2%nat with
       | Some d2 => C.uint8 (Z.land d2 0x7f)
       | None => 0
       end
  else 0.

(** [event->data[i]], zero where the buffer has no such byte. *)
Definition byte_at (event : midi_event_t) (i : nat) : Z :=
  default 0 (data event !! i).

(** The fourteen-bit volume carried by bytes 5 and 6 of the event. *)
Definition sysex_volume14 (event : midi_event_t) : Z :=
  Z.lor (Z.shiftl (Z.land (byte_at event 6) 0x7F) 7) (Z.land (byte_at event 5) 0x7F).

(** The test of the [TSF_MIDI_SYSEX] case. *)
Definition is_volume_sysex (event : midi_event_t) : bool :=
  (data_size event =? 8) && (C.memcmp (take 4 (drop 1 (data event))) volume_signature =? 0).

(** The calls the switch makes on a live handle. *)
Definition switch_calls (h : tsf_midi_t) (event : midi_event_t)
    (status channel p1 p2 : Z) : list call :=
  if status =? TSF_MIDI_PROGRAM_CHANGE then
    [tsf_channel_set_presetnumber (instance h) channel p1 (C.of_bool (channel =? 9))]
  else if status =? TSF_MIDI_NOTE_ON then
    [tsf_channel_note_on (instance h) channel p1 (F32.div (F32.of_int p2) (F32.of_int 127))]
  else if status =? TSF_MIDI_NOTE_OFF then
    [tsf_channel_note_off (instance h) channel p1]
  else if status =? TSF_MIDI_PITCH_BEND then
    [tsf_channel_set_pitchwheel (instance h) channel (C.int32 (Z.lor (Z.shiftl p2 7) p1))]
  else if status =? TSF_MIDI_CONTROL_CHANGE then
    [tsf_channel_midi_control (instance h) channel p1 p2]
  else if status =? TSF_MIDI_SYSEX then
    if is_volume_sysex event
    then [tsf_set_volume (instance h)
            (F32.div (F32.of_int (C.int32 (sysex_volume14 event))) (F32.of_int 16383))]
    else []
  else [].

(** The velocity of a note: [p2 / 127.0f]. *)
Definition velocity (p2 : Z) : F32.t := F32.div (F32.of_int p2) (F32.of_int 127).

(** The one System Exclusive message the driver acts on: eight bytes,
    with the signature [7F 7F 04 01] after the status byte. *)
Definition volume_message (event : midi_event_t) : Prop :=
  Z.land (byte_at event 0) 0xf0 = TSF_MIDI_SYSEX
  /\ data_size event = 8
  /\ byte_at event 1 = 0x7F /\ byte_at event 2 = 0x7F
  /\ byte_at event 3 = 0x04 /\ byte_at event 4 = 0x01.

(** The gain it carries: the fourteen-bit value over [16383.0f]. *)
Definition volume_of (event : midi_event_t) : F32.t :=
  F32.div (F32.of_int (sysex_volume14 event)) (F32.of_int 16383).

(** The calls that release what a handle owns. *)
Definition release_calls (HAVE_THREADS : bool) (d : Z) (h : tsf_midi_t) : list call :=
  [tsf_close (instance h)]
  ++ (if HAVE_THREADS then [slock_free (synth_lock h)] else [])
  ++ [free d].

(** The path of the sound bank: [GM.SF2] in the system directory. *)
Definition sf2path (env : host) : string :=
  fill_pathname_join env (directory_system env) "GM.SF2".

(** The calls of a successful initialisation. *)
Definition init_calls (HAVE_THREADS : bool) (env : host) : list call :=
  [tsf_load_filename (sf2path env);
   tsf_set_output (load_result env (sf2path env)) TSF_STEREO_INTERLEAVED
     (sample_rate env) (F32.of_int 0);
   calloc (sizeof_tsf_midi_t env) 1]
  ++ (if HAVE_THREADS then [slock_new] else [])
  ++ [audio_mixer_play_synth (calloc_result env); audio_driver_mixer_set_active].

(** The block a successful initialisation leaves behind. *)
Definition init_block (HAVE_THREADS : bool) (env : host) : tsf_midi_t :=
  Build_tsf_midi_t (load_result env (sf2path env))
    (if HAVE_THREADS then slock_new_result env else 0).

(** What an engine makes of the calls of a run: [step] is any reaction of
    an engine, output buffers included, to one call. *)
Definition replay {E : Type} (step : E -> call -> E) (e : E) (o : outcome unit) : option E :=
  match o with
  | Done _ s => Some (fold_left step (calls s) e)
  | Undefined _ => None
  end.

(** ** Vocabulary of the further properties *)

(** The engine instance a call is addressed to. *)
Definition call_instance (c : call) : option Z :=
  match c with
  | tsf_set_output f _ _ _ | tsf_render_float f _ _ _
  | tsf_channel_set_presetnumber f _ _ _ | tsf_channel_note_on f _ _ _
  | tsf_channel_note_off f _ _ | tsf_channel_set_pitchwheel f _ _
  | tsf_channel_midi_control f _ _ _ | tsf_set_volume f _ | tsf_close f => Some f
  | _ => None
  end.

(** Strict order on single precision floats. *)
Definition F32_ltb (x y : F32.t) : bool := SFltb x y.

(** The arguments of a channel call are in the ranges of the MIDI
    protocol: sixteen channels, seven-bit data, fourteen-bit pitch, and
    velocities from 0.0 to 1.0.  (The gain of a volume message is not
    constrained here.) *)
Definition midi_range (c : call) : Prop :=
  match c with
  | tsf_channel_set_presetnumber _ channel preset flag =>
      0 <= channel <= 15 /\ 0 <= preset <= 127 /\ (flag = 0 \/ flag = 1)
  | tsf_channel_note_on _ channel key vel =>
      0 <= channel <= 15 /\ 0 <= key <= 127
      /\ F32.leb F32.zero vel = true /\ F32.leb vel F32.one = true
  | tsf_channel_note_off _ channel key =>
      0 <= channel <= 15 /\ 0 <= key <= 127
  | tsf_channel_set_pitchwheel _ channel pitch =>
      0 <= channel <= 15 /\ 0 <= pitch <= 16383
  | tsf_channel_midi_control _ channel controller value =>
      0 <= channel <= 15 /\ 0 <= controller <= 127 /\ 0 <= value <= 127
  | _ => True
  end.

(** The status nibbles the switch has a case for. *)
Definition handled_status (status : Z) : bool :=
  (status =? TSF_MIDI_PROGRAM_CHANGE) || (status =? TSF_MIDI_NOTE_ON)
  || (status =? TSF_MIDI_NOTE_OFF) || (status =? TSF_MIDI_PITCH_BEND)
  || (status =? TSF_MIDI_CONTROL_CHANGE) || (status =? TSF_MIDI_SYSEX).

(** Two events that announce the same length and hold the same bytes
    below it. *)
Definition same_announced_bytes (e1 e2 : midi_event_t) : Prop :=
  data_size e1 = data_size e2
  /\ take (Z.to_nat (data_size e1)) (data e1) = take (Z.to_nat (data_size e1)) (data e2).

(** The velocities of all data values, in order. *)
Definition velocity_table : list F32.t :=
  map (fun k => velocity (Z.of_nat k)) (seq 0 128).

(** Every element is strictly below every later one. *)
Fixpoint pairwise_increasing (l : list F32.t) : bool :=
  match l with
  | [] => true
  | x :: l' => forallb (F32_ltb x) l' && pairwise_increasing l'
  end.

(** ** Sample inputs *)

Definition sample_handle : tsf_midi_t := Build_tsf_midi_t 4096 8192.

Definition sample_state : state := Build_state {[ 1024 := sample_handle ]} [].

Definition sample_host : host :=
  Build_host "/system" 44100 (fun dir file => dir +:+ "/" +:+ file)
    (fun _ => 4096) 1024 8192 16.

(** A host on which the sound bank loads and [calloc] fails. *)
Definition out_of_memory_host : host :=
  Build_host "/system" 44100 (fun dir file => dir +:+ "/" +:+ file)
    (fun _ => 4096) 0 8192 16.

Definition note_on_event : midi_event_t := Build_midi_event_t [0x90; 60; 127] 3 0.
Definition program_change_event : midi_event_t := Build_midi_event_t [0xC9; 5] 2 0.
Definition pitch_bend_event : midi_event_t := Build_midi_event_t [0xE0; 0x7F; 0x7F] 3 0.
Definition volume_event : midi_event_t :=
  Build_midi_event_t [0xF0; 0x7F; 0x7F; 0x04; 0x01; 0x7F; 0x7F; 0xF7] 8 0.
Definition note_off_event : midi_event_t := Build_midi_event_t [0x83; 60; 64] 3 0.
Definition control_change_event : midi_event_t := Build_midi_event_t [0xB2; 7; 100] 3 0.
Definition key_pressure_event : midi_event_t := Build_midi_event_t [0xA0; 60; 10] 3 0.
Definition quiet_note_on_event : midi_event_t := Build_midi_event_t [0x90; 60; 64] 3 0.
Definition padded_note_on_event : midi_event_t :=
  Build_midi_event_t [0x90; 60; 127; 1; 2; 3] 3 0.

(** * Properties *)

(** ** Running the monad on a live handle *)

Lemma emit_nil s : emit s [] = s.
Proof. destruct s as [hp cs]. unfold emit. simpl. by rewrite app_nil_r. Qed.

Lemma emit_emit s a b : emit (emit s a) b = emit s (a ++ b).
Proof. unfold emit. simpl. by rewrite app_assoc. Qed.

Lemma live_emit s d h cs : live s d h -> live (emit s cs) d h.
Proof. intros [Hn Hl]. split; [done | exact Hl]. Qed.

Lemma deref_live s d h : live s d h -> deref d s = Done h s.
Proof.
  intros [Hn Hl]. unfold deref.
  destruct (Z.eqb_spec d C.NULL) as [->|_]; [done |].
  by rewrite Hl.
Qed.

Lemma do_call_emit c s : do_call c s = Done tt (emit s [c]).
Proof. reflexivity. Qed.

Lemma bind_Done {A B} (m : M A) (k : A -> M B) s a s' :
  m s = Done a s' -> bind m k s = k a s'.
Proof. intros E. unfold bind. by rewrite E. Qed.

Lemma bind_Undefined {A B} (m : M A) (k : A -> M B) s f :
  m s = Undefined f -> bind m k s = Undefined f.
Proof. intros E. unfold bind. by rewrite E. Qed.

(** A call whose pointer argument is read through a live handle. *)
Lemma deref_call_live s d h (c : tsf_midi_t -> call) :
  live s d h ->
  bind (deref d) (fun h => do_call (c h)) s = Done tt (emit s [c h]).
Proof. intros L. by rewrite (bind_Done _ _ _ _ _ (deref_live _ _ _ L)). Qed.

Lemma lock_live HT s d h :
  live s d h ->
  TSF_MIDI_SYNTH_LOCK HT d s
  = Done tt (emit s (if HT then [slock_lock (synth_lock h)] else [])).
Proof.
  intros L. unfold TSF_MIDI_SYNTH_LOCK. destruct HT.
  - by apply (deref_call_live s d h (fun h => slock_lock (synth_lock h))).
  - by rewrite emit_nil.
Qed.

Lemma unlock_live HT s d h :
  live s d h ->
  TSF_MIDI_SYNTH_UNLOCK HT d s
  = Done tt (emit s (if HT then [slock_unlock (synth_lock h)] else [])).
Proof.
  intros L. unfold TSF_MIDI_SYNTH_UNLOCK. destruct HT.
  - by apply (deref_call_live s d h (fun h => slock_unlock (synth_lock h))).
  - by rewrite emit_nil.
Qed.

Lemma event_ok_lookup event (i : nat) :
  event_ok event -> Z.of_nat i < data_size event ->
  exists b, data event !! i = Some b.
Proof.
  intros [_ Hle] Hi. apply lookup_lt_is_Some_2. lia.
Qed.

(** An accepted event runs the switch inside the critical section, on the
    masked bytes, and is answered with [true]. *)
Lemma tsf_midi_write_accepted HT s d h event d0 d1 cs :
  live s d h -> event_ok event -> 2 <= data_size event ->
  data event !! 0%nat = Some d0 -> data event !! 1%nat = Some d1 ->
  (forall s0, live s0 d h ->
     dispatch d event (Z.land d0 0xf0) (C.uint8 (Z.land d0 0x0f))
       (C.uint8 (Z.land d1 0x7f)) (third_byte event) s0 = Done tt (emit s0 cs)) ->
  tsf_midi_write HT d event s = Done true (emit s (locked HT h cs)).
Proof.
  intros L Hok Hsz H0 H1 Hd. unfold tsf_midi_write.
  destruct (Z.ltb_spec (data_size event) 2) as [?|_]; [lia |].
  unfold event_data at 1 2. rewrite H0, H1. unfold bind at 1 2, ret at 1 2.
  assert (Hp2 : (if 3 <=? data_size event
                 then let* d2 := event_data event 2 in ret (C.uint8 (Z.land d2 0x7f))
                 else ret 0) s = Done (third_byte event) s).
  { unfold third_byte, event_data.
    destruct (Z.leb_spec 3 (data_size event)) as [H3|_]; [| done].
    destruct (event_ok_lookup event 2 Hok) as [b ->]; [lia | done]. }
  rewrite (bind_Done _ _ _ _ _ Hp2).
  rewrite (bind_Done _ _ _ _ _ (lock_live HT s d h L)).
  rewrite (bind_Done _ _ _ _ _ (Hd _ (live_emit _ _ _ _ L))).
  rewrite emit_emit.
  rewrite (bind_Done _ _ _ _ _ (unlock_live HT _ d h (live_emit _ _ _ _ L))).
  rewrite emit_emit. unfold ret, locked. by rewrite app_assoc.
Qed.

(** ** Seven-bit data bytes and fourteen-bit values *)

Lemma land_0x7f x : Z.land x 0x7f = x mod 128.
Proof. change 0x7f with (Z.ones 7). by rewrite Z.land_ones. Qed.

Lemma land_0x0f x : Z.land x 0x0f = x mod 16.
Proof. change 0x0f with (Z.ones 4). by rewrite Z.land_ones. Qed.

Lemma land_0x7f_range x : 0 <= Z.land x 0x7f <= 127.
Proof. rewrite land_0x7f. pose proof (Z.mod_pos_bound x 128). lia. Qed.

Lemma land_0x0f_range x : 0 <= Z.land x 0x0f <= 15.
Proof. rewrite land_0x0f. pose proof (Z.mod_pos_bound x 16). lia. Qed.

Lemma uint8_small z : 0 <= z < 256 -> C.uint8 z = z.
Proof. intros H. unfold C.uint8. by apply Z.mod_small. Qed.

Lemma uint8_land_0x7f x : C.uint8 (Z.land x 0x7f) = Z.land x 0x7f.
Proof. apply uint8_small. pose proof (land_0x7f_range x). lia. Qed.

Lemma uint8_land_0x0f x : C.uint8 (Z.land x 0x0f) = Z.land x 0x0f.
Proof. apply uint8_small. pose proof (land_0x0f_range x). lia. Qed.

Lemma int32_small z : -2147483648 <= z < 2147483648 -> C.int32 z = z.
Proof. intros H. unfold C.int32. rewrite Z.mod_small; lia. Qed.

(** Packing two seven-bit values: the bits do not overlap, so the
    disjunction is a sum. *)
Lemma pack14 hi lo :
  0 <= lo < 128 -> Z.lor (Z.shiftl hi 7) lo = hi * 128 + lo.
Proof.
  intros Hlo.
  assert (Hand : Z.land (Z.shiftl hi 7) lo = 0).
  { apply Z.bits_inj'. intros n Hn.
    rewrite Z.land_spec, Z.bits_0.
    destruct (Z.lt_ge_cases n 7) as [Hlt|Hge].
    - by rewrite Z.shiftl_spec_low.
    - rewrite (Z.bits_above_log2 lo n); [by rewrite andb_false_r | lia |].
      destruct (Z.eq_dec lo 0) as [->|Hnz]; [simpl; lia |].
      assert (Z.log2 lo < 7); [apply Z.log2_lt_pow2; lia | lia]. }
  pose proof (Z.add_lor_land (Z.shiftl hi 7) lo) as Hadd.
  rewrite Hand in Hadd. rewrite Z.add_0_r in Hadd. rewrite Hadd.
  by rewrite Z.shiftl_mul_pow2.
Qed.

Lemma pack14_range hi lo :
  0 <= hi <= 127 -> 0 <= lo <= 127 ->
  0 <= Z.lor (Z.shiftl hi 7) lo <= 16383.
Proof. intros Hhi Hlo. rewrite pack14; lia. Qed.

(** ** The switch as a list of calls *)

Lemma sysex_case_live s d h event :
  live s d h -> event_ok event ->
  sysex_case d event s
  = Done tt (emit s (if is_volume_sysex event
                     then [tsf_set_volume (instance h)
                             (F32.div (F32.of_int (C.int32 (sysex_volume14 event)))
                                (F32.of_int 16383))]
                     else [])).
Proof.
  intros L Hok. unfold sysex_case, is_volume_sysex.
  destruct (Z.eqb_spec (data_size event) 8) as [H8|_]; simpl;
    [| by rewrite emit_nil].
  unfold event_bytes. destruct Hok as [_ Hlen].
  destruct (Nat.leb_spec (1 + 4) (length (data event))) as [_|?]; [| lia].
  unfold bind at 1, ret at 1.
  destruct (C.memcmp (take 4 (drop 1 (data event))) volume_signature =? 0); simpl;
    [| by rewrite emit_nil].
  destruct (lookup_lt_is_Some_2 (data event) 6) as [d6 H6]; [lia |].
  destruct (lookup_lt_is_Some_2 (data event) 5) as [d5 H5]; [lia |].
  unfold event_data, sysex_volume14, byte_at. rewrite H6, H5. simpl.
  unfold bind at 1 2, ret at 1 2.
  by rewrite (deref_call_live s d h (fun h => tsf_set_volume (instance h) _) L).
Qed.

Lemma dispatch_live s d h event status channel p1 p2 :
  live s d h -> event_ok event ->
  dispatch d event status channel p1 p2 s
  = Done tt (emit s (switch_calls h event status channel p1 p2)).
Proof.
  intros L Hok. unfold dispatch, switch_calls.
  repeat (destruct (_ =? _)%Z;
          [ first [ by apply (deref_call_live s d h (fun h => tsf_channel_set_presetnumber (instance h) _ _ _))
                  | by apply (deref_call_live s d h (fun h => tsf_channel_note_on (instance h) _ _ _))
                  | by apply (deref_call_live s d h (fun h => tsf_channel_note_off (instance h) _ _))
                  | by apply (deref_call_live s d h (fun h => tsf_channel_set_pitchwheel (instance h) _ _))
                  | by apply (deref_call_live s d h (fun h => tsf_channel_midi_control (instance h) _ _ _))
                  | by apply sysex_case_live ] |]).
  by rewrite emit_nil.
Qed.

(** What [tsf_midi_write] does with an accepted event on a live handle. *)
Lemma tsf_midi_write_live HT s d h event d0 d1 :
  live s d h -> event_ok event -> 2 <= data_size event ->
  data event !! 0%nat = Some d0 -> data event !! 1%nat = Some d1 ->
  tsf_midi_write HT d event s
  = Done true (emit s (locked HT h
      (switch_calls h event (Z.land d0 0xf0) (Z.land d0 0x0f) (Z.land d1 0x7f)
         (third_byte event)))).
Proof.
  intros L Hok Hsz H0 H1.
  apply (tsf_midi_write_accepted HT s d h event d0 d1); try done.
  intros s0 L0. rewrite uint8_land_0x0f, uint8_land_0x7f.
  by apply dispatch_live.
Qed.

(** A short event is answered with [false] before anything is read. *)
Lemma tsf_midi_write_short HT s d event :
  data_size event < 2 -> tsf_midi_write HT d event s = Done false s.
Proof.
  intros Hsz. unfold tsf_midi_write.
  by destruct (Z.ltb_spec (data_size event) 2) as [_|?]; [| lia].
Qed.

Lemma synth_calls_locked HT h cs : synth_calls (locked HT h cs) = synth_calls cs.
Proof.
  unfold locked, synth_calls. rewrite !List.filter_app.
  destruct HT; simpl; by rewrite app_nil_r.
Qed.

Lemma switch_calls_synth h event status channel p1 p2 :
  synth_calls (switch_calls h event status channel p1 p2)
  = switch_calls h event status channel p1 p2.
Proof.
  unfold switch_calls.
  repeat match goal with
         | |- context [if ?b then _ else _] => destruct b
         end; reflexivity.
Qed.

(** ** The sample handle is live *)

Lemma sample_live : live sample_state 1024 sample_handle.
Proof. split; [discriminate | reflexivity]. Qed.

(** ** Dispatch: the length check *)

(** C1.  [tsf_midi_write] answers [false] exactly when the event announces
    fewer than two bytes; a rejected event leaves the state, and so the
    sequence of calls made, as it was; every event of two bytes or more is
    answered with [true], whatever its status byte. *)
Theorem tsf_midi_write_rejects_iff_short HT s d h event :
  live s d h -> event_ok event ->
  exists r s', tsf_midi_write HT d event s = Done r s'
    /\ (r = false <-> data_size event < 2)
    /\ (r = false -> s' = s).
Proof.
  intros L Hok.
  destruct (Z.lt_ge_cases (data_size event) 2) as [Hlt|Hge].
  - exists false, s. by rewrite tsf_midi_write_short.
  - destruct (event_ok_lookup event 0 Hok) as [d0 H0]; [lia |].
    destruct (event_ok_lookup event 1 Hok) as [d1 H1]; [lia |].
    eexists true, _. split; [by apply (tsf_midi_write_live HT s d h event d0 d1) |].
    split; [split; [done | lia] | done].
Qed.

Lemma tsf_midi_write_rejects_iff_short_witness :
  live sample_state 1024 sample_handle /\ event_ok note_on_event /\
  exists r s', tsf_midi_write true 1024 note_on_event sample_state = Done r s'
    /\ (r = false <-> data_size note_on_event < 2)
    /\ (r = false -> s' = sample_state).
Proof.
  split; [exact sample_live |].
  split; [unfold event_ok; simpl; lia |].
  apply (tsf_midi_write_rejects_iff_short true sample_state 1024 sample_handle note_on_event).
  - exact sample_live.
  - unfold event_ok; simpl; lia.
Defined.

(** ** Dispatch: the channel messages *)

Lemma third_byte_present event d2 :
  3 <= data_size event -> data event !! 2%nat = Some d2 ->
  third_byte event = Z.land d2 0x7f.
Proof.
  intros Hsz H2. unfold third_byte. rewrite H2.
  destruct (Z.leb_spec 3 (data_size event)); [apply uint8_land_0x7f | lia].
Qed.

Lemma third_byte_absent event : data_size event < 3 -> third_byte event = 0.
Proof.
  intros Hsz. unfold third_byte.
  destruct (Z.leb_spec 3 (data_size event)); [lia | done].
Qed.

Lemma third_byte_range event : 0 <= third_byte event <= 127.
Proof.
  unfold third_byte.
  destruct (3 <=? data_size event); [| lia].
  destruct (data event !! 2%nat) as [d2|]; [| lia].
  rewrite uint8_land_0x7f. apply land_0x7f_range.
Qed.

(** A property checked on every number below [n] holds below [n]. *)
Lemma forallb_below (P : Z -> bool) (n : nat) :
  forallb (fun k => P (Z.of_nat k)) (seq 0 n) = true ->
  forall z, 0 <= z < Z.of_nat n -> P z = true.
Proof.
  intros Hall z Hz. rewrite forallb_forall in Hall.
  specialize (Hall (Z.to_nat z)). rewrite Z2Nat.id in Hall by lia.
  apply Hall. apply in_seq. lia.
Qed.

Lemma velocity_range p2 :
  0 <= p2 <= 127 ->
  F32.leb F32.zero (velocity p2) = true /\ F32.leb (velocity p2) F32.one = true.
Proof.
  intros Hp.
  apply andb_true_iff.
  apply (forallb_below
           (fun z => F32.leb F32.zero (velocity z) && F32.leb (velocity z) F32.one) 128);
    [vm_compute; reflexivity | lia].
Qed.

(** C6.  A Program Change event reaches [tsf_channel_set_presetnumber]
    with the drum flag set exactly when the channel, the low nibble of the
    status byte, is 9, and cleared on every other channel. *)
Theorem program_change_drum_flag HT s d h event d0 d1 :
  live s d h -> event_ok event -> 2 <= data_size event ->
  data event !! 0%nat = Some d0 -> data event !! 1%nat = Some d1 ->
  Z.land d0 0xf0 = TSF_MIDI_PROGRAM_CHANGE ->
  exists flag,
    tsf_midi_write HT d event s
    = Done true (emit s (locked HT h
        [tsf_channel_set_presetnumber (instance h) (Z.land d0 0x0f) (Z.land d1 0x7f) flag]))
    /\ (flag = 1 <-> Z.land d0 0x0f = 9)
    /\ (flag = 0 <-> Z.land d0 0x0f <> 9).
Proof.
  intros L Hok Hsz H0 H1 Hst.
  exists (C.of_bool (Z.land d0 0x0f =? 9)). split.
  - rewrite (tsf_midi_write_live HT s d h event d0 d1) by done.
    unfold switch_calls. by rewrite Hst.
  - destruct (Z.eqb_spec (Z.land d0 0x0f) 9) as [E|E]; simpl; split; split;
      intros; (done || lia).
Qed.

Lemma program_change_drum_flag_witness :
  tsf_midi_write true 1024 program_change_event sample_state
  = Done true (emit sample_state (locked true sample_handle
      [tsf_channel_set_presetnumber (instance sample_handle) 9 5 1])).
Proof.
  destruct (program_change_drum_flag true sample_state 1024 sample_handle
              program_change_event 0xC9 5) as (flag & Hrun & Hset & _).
  - exact sample_live.
  - unfold event_ok; simpl; lia.
  - simpl; lia.
  - reflexivity.
  - reflexivity.
  - reflexivity.
  - rewrite Hrun. rewrite (proj2 Hset); reflexivity.
Defined.

(** C7.  A Note On event starts note [data1] with velocity
    [(byte2 & 0x7F) / 127.0f], computed in single precision: 127 gives
    exactly 1.0, 0 or an absent third byte gives exactly 0.0, and the
    velocity is never below 0.0 or above 1.0. *)
Theorem note_on_velocity HT s d h event d0 d1 :
  live s d h -> event_ok event -> 2 <= data_size event ->
  data event !! 0%nat = Some d0 -> data event !! 1%nat = Some d1 ->
  Z.land d0 0xf0 = TSF_MIDI_NOTE_ON ->
  exists vel,
    tsf_midi_write HT d event s
    = Done true (emit s (locked HT h
        [tsf_channel_note_on (instance h) (Z.land d0 0x0f) (Z.land d1 0x7f) vel]))
    /\ (forall d2, 3 <= data_size event -> data event !! 2%nat = Some d2 ->
          vel = F32.div (F32.of_int (Z.land d2 0x7f)) (F32.of_int 127)
          /\ (Z.land d2 0x7f = 127 -> vel = F32.one)
          /\ (Z.land d2 0x7f = 0 -> vel = F32.zero))
    /\ (data_size event < 3 -> vel = F32.zero)
    /\ F32.leb F32.zero vel = true /\ F32.leb vel F32.one = true.
Proof.
  intros L Hok Hsz H0 H1 Hst.
  exists (velocity (third_byte event)). split.
  { rewrite (tsf_midi_write_live HT s d h event d0 d1) by done.
    unfold switch_calls. by rewrite Hst. }
  split.
  { intros d2 H3 H2. rewrite (third_byte_present event d2) by done.
    split; [done |]. split; intros ->; reflexivity. }
  split.
  { intros Hlt. by rewrite third_byte_absent. }
  apply velocity_range, third_byte_range.
Qed.

Lemma note_on_velocity_witness :
  tsf_midi_write true 1024 note_on_event sample_state
  = Done true (emit sample_state (locked true sample_handle
      [tsf_channel_note_on (instance sample_handle) 0 60 F32.one])).
Proof.
  destruct (note_on_velocity true sample_state 1024 sample_handle note_on_event 0x90 60)
    as (vel & Hrun & Hvel & _).
  - exact sample_live.
  - unfold event_ok; simpl; lia.
  - simpl; lia.
  - reflexivity.
  - reflexivity.
  - reflexivity.
  - destruct (Hvel 127) as (_ & Hone & _); [simpl; lia | reflexivity |].
    rewrite Hrun, Hone; reflexivity.
Defined.

(** C5.  A Pitch Bend event sets the channel's pitch wheel to
    [((byte2 & 0x7F) << 7) | (byte1 & 0x7F)] when it has its third byte
    (to [byte1 & 0x7F] when it has not); two data bytes of [0x7F] give
    16383, and the value always lies between 0 and 16383. *)
Theorem pitch_bend_value HT s d h event d0 d1 :
  live s d h -> event_ok event -> 2 <= data_size event ->
  data event !! 0%nat = Some d0 -> data event !! 1%nat = Some d1 ->
  Z.land d0 0xf0 = TSF_MIDI_PITCH_BEND ->
  exists pitch,
    tsf_midi_write HT d event s
    = Done true (emit s (locked HT h
        [tsf_channel_set_pitchwheel (instance h) (Z.land d0 0x0f) pitch]))
    /\ (forall d2, 3 <= data_size event -> data event !! 2%nat = Some d2 ->
          pitch = Z.lor (Z.shiftl (Z.land d2 0x7F) 7) (Z.land d1 0x7F)
          /\ (Z.land d1 0x7F = 0x7F -> Z.land d2 0x7F = 0x7F -> pitch = 16383))
    /\ (data_size event < 3 -> pitch = Z.land d1 0x7F)
    /\ 0 <= pitch <= 16383.
Proof.
  intros L Hok Hsz H0 H1 Hst.
  pose proof (pack14_range (third_byte event) (Z.land d1 0x7f)
                (third_byte_range event) (land_0x7f_range d1)) as Hr.
  exists (Z.lor (Z.shiftl (third_byte event) 7) (Z.land d1 0x7f)). split.
  { rewrite (tsf_midi_write_live HT s d h event d0 d1) by done.
    unfold switch_calls. rewrite Hst. simpl. by rewrite int32_small by lia. }
  split.
  { intros d2 H3 H2. rewrite (third_byte_present event d2) by done.
    split; [done |]. by intros -> ->. }
  split.
  { intros Hlt. rewrite third_byte_absent by done. apply Z.lor_0_l. }
  exact Hr.
Qed.

Lemma pitch_bend_value_witness :
  tsf_midi_write true 1024 pitch_bend_event sample_state
  = Done true (emit sample_state (locked true sample_handle
      [tsf_channel_set_pitchwheel (instance sample_handle) 0 16383])).
Proof.
  destruct (pitch_bend_value true sample_state 1024 sample_handle pitch_bend_event 0xE0 0x7F)
    as (pitch & Hrun & Hval & _).
  - exact sample_live.
  - unfold event_ok; simpl; lia.
  - simpl; lia.
  - reflexivity.
  - reflexivity.
  - reflexivity.
  - destruct (Hval 0x7F) as (_ & Hmax); [simpl; lia | reflexivity |].
    rewrite Hrun, Hmax; reflexivity.
Defined.

(** ** Dispatch: the volume message *)

Lemma memcmp_zero_iff a b :
  length a = length b -> C.memcmp a b = 0 <-> a = b.
Proof.
  revert b. induction a as [|x a IH]; intros [|y b] Hlen; simpl in *; try done.
  destruct (Z.eqb_spec x y) as [->|Hne].
  - rewrite IH by lia. split; [by intros -> | by intros [= ->]].
  - split; [lia | by intros [= -> _]].
Qed.

Lemma is_volume_sysex_spec event :
  event_ok event ->
  is_volume_sysex event = true
  <-> data_size event = 8
      /\ byte_at event 1 = 0x7F /\ byte_at event 2 = 0x7F
      /\ byte_at event 3 = 0x04 /\ byte_at event 4 = 0x01.
Proof.
  intros [_ Hlen]. unfold is_volume_sysex, byte_at.
  rewrite andb_true_iff, !Z.eqb_eq.
  split; intros [H8 H]; (split; [exact H8 |]); rewrite H8 in Hlen;
    destruct (data event) as [|a0 [|a1 [|a2 [|a3 [|a4 l]]]]]; simpl in Hlen; try lia;
    simpl in *.
  - repeat match goal with
           | H : context [(?x =? ?y)%Z] |- _ => destruct (Z.eqb_spec x y)
           end; (done || lia).
  - destruct H as (-> & -> & -> & ->). reflexivity.
Qed.

Lemma sysex_volume14_range event : 0 <= sysex_volume14 event <= 16383.
Proof. apply pack14_range; apply land_0x7f_range. Qed.

Lemma switch_calls_sysex h event channel p1 p2 :
  switch_calls h event TSF_MIDI_SYSEX channel p1 p2
  = if is_volume_sysex event
    then [tsf_set_volume (instance h) (volume_of event)]
    else [].
Proof.
  unfold switch_calls, volume_of. simpl.
  by rewrite int32_small by (pose proof (sysex_volume14_range event); lia).
Qed.

Lemma switch_calls_set_volume h event status channel p1 p2 f g :
  In (tsf_set_volume f g) (switch_calls h event status channel p1 p2) ->
  status = TSF_MIDI_SYSEX /\ is_volume_sysex event = true.
Proof.
  unfold switch_calls.
  repeat match goal with
         | |- context [if (?x =? ?y)%Z then _ else _] => destruct (Z.eqb_spec x y)
         end;
    first [ by intros []
          | by intros [?|[]]
          | destruct (is_volume_sysex event); [done | by intros []] ].
Qed.

Lemma In_synth_calls c l : In c l -> is_synth_call c = true -> In c (synth_calls l).
Proof. intros Hin Hs. apply List.filter_In. by split. Qed.

(** C2.  The master volume is set only by the volume message: a System
    Exclusive event of exactly eight bytes whose bytes 1 to 4 are
    [7F 7F 04 01].  The gain is the fourteen-bit value of bytes 5 and 6
    over [16383.0f], which is 1.0 when both carry [0x7F].  Any other event
    makes no [tsf_set_volume] call, and any other System Exclusive event
    makes no engine call at all. *)
Theorem sysex_master_volume HT s d h event :
  live s d h -> event_ok event ->
  exists r new,
    tsf_midi_write HT d event s = Done r (emit s new)
    /\ (volume_message event ->
          r = true
          /\ synth_calls new = [tsf_set_volume (instance h) (volume_of event)]
          /\ sysex_volume14 event
             = Z.lor (Z.shiftl (Z.land (byte_at event 6) 0x7F) 7)
                     (Z.land (byte_at event 5) 0x7F)
          /\ (Z.land (byte_at event 5) 0x7F = 0x7F ->
              Z.land (byte_at event 6) 0x7F = 0x7F -> volume_of event = F32.one))
    /\ (~ volume_message event -> forall f g, ~ In (tsf_set_volume f g) new)
    /\ (~ volume_message event ->
          Z.land (byte_at event 0) 0xf0 = TSF_MIDI_SYSEX -> synth_calls new = []).
Proof.
  intros L Hok.
  destruct (Z.lt_ge_cases (data_size event) 2) as [Hlt|Hge].
  { exists false, []. rewrite emit_nil, tsf_midi_write_short by done.
    split; [done |]. split; [| by split; [intros _ f g [] |]].
    intros (_ & H8 & _). lia. }
  destruct (event_ok_lookup event 0 Hok) as [d0 H0]; [lia |].
  destruct (event_ok_lookup event 1 Hok) as [d1 H1]; [lia |].
  assert (Hb0 : byte_at event 0 = d0) by (unfold byte_at; by rewrite H0).
  eexists true, _. split; [by apply (tsf_midi_write_live HT s d h event d0 d1) |].
  rewrite synth_calls_locked, switch_calls_synth, Hb0.
  split; [| split].
  - intros (Hst & Hv). apply (is_volume_sysex_spec event Hok) in Hv.
    rewrite Hb0 in Hst. rewrite Hst, switch_calls_sysex, Hv.
    split; [done |]. split; [done |]. split; [done |].
    intros H5 H6. unfold volume_of, sysex_volume14. rewrite H5, H6. reflexivity.
  - intros Hno f g Hin. apply Hno.
    apply In_synth_calls in Hin; [| done].
    rewrite synth_calls_locked, switch_calls_synth in Hin.
    apply switch_calls_set_volume in Hin as [Hst Hv].
    apply (is_volume_sysex_spec event Hok) in Hv.
    unfold volume_message. by rewrite Hb0.
  - intros Hno Hst. rewrite Hst, switch_calls_sysex.
    destruct (is_volume_sysex event) eqn:Hv; [| done].
    exfalso. apply Hno. apply (is_volume_sysex_spec event Hok) in Hv.
    unfold volume_message. by rewrite Hb0.
Qed.

Lemma sysex_master_volume_witness :
  volume_message volume_event
  /\ exists new,
       tsf_midi_write true 1024 volume_event sample_state = Done true (emit sample_state new)
       /\ synth_calls new = [tsf_set_volume (instance sample_handle) F32.one].
Proof.
  assert (Hmsg : volume_message volume_event) by (repeat split).
  split; [exact Hmsg |].
  destruct (sysex_master_volume true sample_state 1024 sample_handle volume_event)
    as (r & new & Hrun & Hvol & _).
  - exact sample_live.
  - unfold event_ok; simpl; lia.
  - destruct (Hvol Hmsg) as (Hr & Hcalls & _ & Hone).
    exists new. rewrite Hrun, Hr, Hcalls, Hone; [split | |]; reflexivity.
Defined.

(** The volume message does occur: the sample event is one, and sets the
    gain to 1.0. *)
Example volume_event_sets_full_volume :
  volume_message volume_event
  /\ tsf_midi_write false 1024 volume_event sample_state
     = Done true (emit sample_state [tsf_set_volume 4096 F32.one]).
Proof. split; [by repeat split | reflexivity]. Qed.

(** ** Shutdown *)

Lemma tsf_midi_free_null HT s : tsf_midi_free HT C.NULL s = Done tt s.
Proof. reflexivity. Qed.

Lemma tsf_midi_free_live HT s d h :
  live s d h ->
  tsf_midi_free HT d s
  = Done tt (Build_state (delete d (heap s)) (calls s ++ release_calls HT d h)).
Proof.
  intros L. pose proof L as [Hn Hl]. unfold tsf_midi_free.
  destruct (Z.eqb_spec d C.NULL) as [?|_]; [done |]. simpl.
  rewrite (bind_Done _ _ _ _ _ (deref_live _ _ _ L)).
  rewrite (bind_Done _ _ _ _ _ (do_call_emit _ _)).
  assert (Hlock : (if HT then let* h := deref d in do_call (slock_free (synth_lock h))
                   else ret tt) (emit s [tsf_close (instance h)])
                  = Done tt (emit (emit s [tsf_close (instance h)])
                               (if HT then [slock_free (synth_lock h)] else []))).
  { destruct HT.
    - apply (deref_call_live _ d h (fun h => slock_free (synth_lock h))).
      by apply live_emit.
    - by rewrite emit_nil. }
  rewrite (bind_Done _ _ _ _ _ Hlock), emit_emit.
  unfold do_free. destruct (Z.eqb_spec d C.NULL) as [?|_]; [done |].
  simpl. rewrite Hl. unfold release_calls. by rewrite <- !app_assoc.
Qed.

Lemma tsf_midi_free_released HT s d :
  d <> C.NULL -> heap s !! d = None ->
  tsf_midi_free HT d s = Undefined UseAfterFree.
Proof.
  intros Hn Hl. unfold tsf_midi_free.
  destruct (Z.eqb_spec d C.NULL) as [?|_]; [done |]. simpl.
  apply bind_Undefined. unfold deref.
  destruct (Z.eqb_spec d C.NULL) as [?|_]; [done |]. by rewrite Hl.
Qed.

(** C3, as stated, fails.  The first [tsf_midi_free] on the sample handle
    releases the instance, the lock and the block.  The second, given the
    same pointer, is not stopped by the null check: the pointer is not
    null, so the body runs again and reads [d->instance] from the released
    block, which is undefined behaviour and not a no-op. *)
Lemma tsf_midi_free_twice_counterexample :
  exists s1,
    s1 = Build_state ∅ [tsf_close 4096; slock_free 8192; free 1024]
    /\ tsf_midi_free true 1024 sample_state = Done tt s1
    /\ tsf_midi_free true 1024 s1 = Undefined UseAfterFree
    /\ tsf_midi_free true 1024 s1 <> Done tt s1.
Proof.
  eexists. split; [reflexivity |].
  split; [vm_compute; reflexivity |].
  split; [vm_compute; reflexivity | vm_compute; discriminate].
Qed.

(** C3, amended.  [tsf_midi_free] with the null pointer changes nothing.
    On a live handle it closes the instance, frees the lock (in threaded
    builds) and frees the block, once each.  It cannot clear its caller's
    pointer: afterwards a second call is a no-op when it is given the null
    pointer, whereas the same pointer again passes the null check and
    reads the released block. *)
Theorem tsf_midi_free_null_guard HT s :
  tsf_midi_free HT C.NULL s = Done tt s
  /\ forall d h, live s d h ->
       exists s',
         tsf_midi_free HT d s = Done tt s'
         /\ heap s' = delete d (heap s)
         /\ calls s' = calls s ++ release_calls HT d h
         /\ tsf_midi_free HT C.NULL s' = Done tt s'
         /\ tsf_midi_free HT d s' = Undefined UseAfterFree.
Proof.
  split; [apply tsf_midi_free_null |].
  intros d h L. eexists. split; [by apply tsf_midi_free_live |].
  split; [done |]. split; [done |]. split; [apply tsf_midi_free_null |].
  apply tsf_midi_free_released; [apply L |]. simpl. apply lookup_delete_eq.
Qed.

Lemma tsf_midi_free_null_guard_witness :
  exists s',
    tsf_midi_free true 1024 sample_state = Done tt s'
    /\ heap s' = delete 1024 (heap sample_state)
    /\ calls s' = calls sample_state ++ release_calls true 1024 sample_handle
    /\ tsf_midi_free true C.NULL s' = Done tt s'
    /\ tsf_midi_free true 1024 s' = Undefined UseAfterFree.
Proof.
  apply (proj2 (tsf_midi_free_null_guard true sample_state) 1024 sample_handle).
  exact sample_live.
Defined.

(** ** Initialisation *)

Lemma tsf_midi_init_no_output HT env input s :
  tsf_midi_init HT env input None s = Done C.NULL s.
Proof. reflexivity. Qed.

Lemma tsf_midi_init_load_fails HT env input o s :
  load_result env (sf2path env) = C.NULL ->
  tsf_midi_init HT env input (Some o) s
  = Done C.NULL (emit s [tsf_load_filename (sf2path env)]).
Proof.
  intros Hl. unfold tsf_midi_init. fold (sf2path env). simpl.
  rewrite (bind_Done _ _ _ _ _ (do_call_emit _ _)).
  by rewrite Hl.
Qed.

Lemma tsf_midi_init_calloc_fails HT env input o s :
  load_result env (sf2path env) <> C.NULL -> calloc_result env = C.NULL ->
  tsf_midi_init HT env input (Some o) s = Undefined NullDereference.
Proof.
  intros Hl Hc. unfold tsf_midi_init. fold (sf2path env). simpl.
  rewrite (bind_Done _ _ _ _ _ (do_call_emit _ _)).
  destruct (Z.eqb_spec (load_result env (sf2path env)) C.NULL) as [?|_]; [done |].
  rewrite (bind_Done _ _ _ _ _ (do_call_emit _ _)).
  unfold bind, do_calloc, store_instance. by rewrite Hc.
Qed.

Lemma tsf_midi_init_success HT env input o s :
  load_result env (sf2path env) <> C.NULL -> calloc_result env <> C.NULL ->
  tsf_midi_init HT env input (Some o) s
  = Done (calloc_result env)
      (Build_state (<[calloc_result env := init_block HT env]> (heap s))
         (calls s ++ init_calls HT env)).
Proof.
  intros Hl Hc. unfold tsf_midi_init. fold (sf2path env). simpl.
  rewrite (bind_Done _ _ _ _ _ (do_call_emit _ _)).
  destruct (Z.eqb_spec (load_result env (sf2path env)) C.NULL) as [?|_]; [done |].
  rewrite (bind_Done _ _ _ _ _ (do_call_emit _ _)).
  unfold bind, do_calloc, store_instance, store_synth_lock, do_call, ret,
    init_calls, init_block.
  destruct HT;
    repeat first
      [ match goal with
        | |- context [calloc_result env =? C.NULL] =>
            destruct (Z.eqb_spec (calloc_result env) C.NULL) as [?|_]; [done |]
        end
      | progress cbn [heap calls instance synth_lock]
      | rewrite lookup_insert_eq ];
    unfold emit; cbn [heap calls];
    rewrite !insert_insert_eq, <- !app_assoc; reflexivity.
Qed.

(** C8.  [tsf_midi_init] returns [NULL] when [output] is null, and then
    before anything is loaded (the state is untouched); it returns [NULL]
    when [tsf_load_filename] fails, having made that call only; when the
    load succeeds and the block is allocated it returns the block's
    address, which is not null and holds the loaded instance; and [NULL] is
    returned in no other case. *)
Theorem tsf_midi_init_result HT env input output s :
  (output = None -> tsf_midi_init HT env input output s = Done C.NULL s)
  /\ (output <> None -> load_result env (sf2path env) = C.NULL ->
        tsf_midi_init HT env input output s
        = Done C.NULL (emit s [tsf_load_filename (sf2path env)]))
  /\ (output <> None -> load_result env (sf2path env) <> C.NULL ->
        calloc_result env <> C.NULL ->
        exists s',
          tsf_midi_init HT env input output s = Done (calloc_result env) s'
          /\ calls s' = calls s ++ init_calls HT env
          /\ live s' (calloc_result env) (init_block HT env))
  /\ (forall s', tsf_midi_init HT env input output s = Done C.NULL s' ->
        output = None \/ load_result env (sf2path env) = C.NULL).
Proof.
  destruct output as [o|].
  2: { split; [done |]. split; [done |]. split; [done |]. by left. }
  split; [done |].
  split; [intros _; apply tsf_midi_init_load_fails |].
  split.
  - intros _ Hl Hc. eexists. split; [by apply tsf_midi_init_success |].
    split; [done |]. split; [done |]. simpl. apply lookup_insert_eq.
  - intros s' Hret.
    destruct (Z.eq_dec (load_result env (sf2path env)) C.NULL) as [Hl|Hl]; [by right |].
    destruct (Z.eq_dec (calloc_result env) C.NULL) as [Hc|Hc].
    + by rewrite tsf_midi_init_calloc_fails in Hret.
    + rewrite tsf_midi_init_success in Hret by done. by injection Hret as Hd _.
Qed.

Lemma tsf_midi_init_result_witness :
  exists s',
    tsf_midi_init true sample_host None (Some "SF2"%string) (Build_state ∅ [])
    = Done (calloc_result sample_host) s'
    /\ calls s' = calls (Build_state ∅ []) ++ init_calls true sample_host
    /\ live s' (calloc_result sample_host) (init_block true sample_host).
Proof.
  destruct (tsf_midi_init_result true sample_host None (Some "SF2"%string)
              (Build_state ∅ [])) as (_ & _ & Hok & _).
  apply Hok; discriminate.
Defined.

(** Initialisation on the sample host: the sound bank loads, the block is
    allocated at 1024, and the state reached is the sample state after the
    six calls. *)
Example tsf_midi_init_sample :
  tsf_midi_init true sample_host None (Some "SF2"%string) (Build_state ∅ [])
  = Done 1024 (emit sample_state (init_calls true sample_host)).
Proof. vm_compute. reflexivity. Qed.

(** ** Rendering *)

Lemma tsf_synth_live HT s p h buffer num_frames volume :
  live s p h ->
  tsf_synth HT p buffer num_frames volume s
  = Done tt (emit s (locked HT h
      [tsf_render_float (instance h) buffer (C.int32 num_frames) 1])).
Proof.
  intros L. unfold tsf_synth.
  rewrite (bind_Done _ _ _ _ _ (lock_live HT s p h L)).
  rewrite (bind_Done _ _ _ _ _ (deref_live _ _ _ (live_emit _ _ _ _ L))).
  rewrite (bind_Done _ _ _ _ _ (do_call_emit _ _)), emit_emit.
  rewrite (unlock_live HT _ p h (live_emit _ _ _ _ L)), emit_emit.
  unfold locked. by rewrite app_assoc.
Qed.

(** C9.  [tsf_synth] does not use [volume]: two runs that differ in it
    alone end alike, with the same calls made, and any engine is left in
    the same condition by them; on a live handle the one engine call is
    [tsf_render_float] on the handle's instance, the buffer and the frame
    count (converted to [int]), with mixing on. *)
Theorem tsf_synth_ignores_volume HT p buffer num_frames volume1 volume2 s :
  tsf_synth HT p buffer num_frames volume1 s = tsf_synth HT p buffer num_frames volume2 s
  /\ (forall (E : Type) (step : E -> call -> E) (e : E),
        replay step e (tsf_synth HT p buffer num_frames volume1 s)
        = replay step e (tsf_synth HT p buffer num_frames volume2 s))
  /\ (forall h, live s p h ->
        tsf_synth HT p buffer num_frames volume1 s
        = Done tt (emit s (locked HT h
            [tsf_render_float (instance h) buffer (C.int32 num_frames) 1]))).
Proof.
  split; [reflexivity |]. split; [reflexivity |].
  intros h L. by apply tsf_synth_live.
Qed.

Lemma tsf_synth_ignores_volume_witness :
  tsf_synth true 1024 2048 256 F32.zero sample_state
  = tsf_synth true 1024 2048 256 F32.one sample_state
  /\ tsf_synth true 1024 2048 256 F32.zero sample_state
     = Done tt (emit sample_state
                  (locked true sample_handle
                     [tsf_render_float (instance sample_handle) 2048 256 1])).
Proof.
  destruct (tsf_synth_ignores_volume true 1024 2048 256 F32.zero F32.one sample_state)
    as (Hsame & _ & Hlive).
  split; [exact Hsame |]. apply Hlive. exact sample_live.
Defined.

(** ** Enumeration *)

(** C10.  [tsf_midi_get_avail_outputs] answers [true] and leaves the list
    with the four names SF2, sf2, GM and gm added at its end, in that
    order; so each of them is in the list. *)
Theorem tsf_midi_get_avail_outputs_aliases (outputs : string_list) :
  snd (tsf_midi_get_avail_outputs outputs) = true
  /\ fst (tsf_midi_get_avail_outputs outputs)
     = outputs ++ [("SF2", 0); ("sf2", 0); ("GM", 0); ("gm", 0)]%string
  /\ In "SF2"%string (map fst (fst (tsf_midi_get_avail_outputs outputs)))
  /\ In "sf2"%string (map fst (fst (tsf_midi_get_avail_outputs outputs)))
  /\ In "GM"%string (map fst (fst (tsf_midi_get_avail_outputs outputs)))
  /\ In "gm"%string (map fst (fst (tsf_midi_get_avail_outputs outputs))).
Proof.
  assert (Heq : fst (tsf_midi_get_avail_outputs outputs)
                = outputs ++ [("SF2", 0); ("sf2", 0); ("GM", 0); ("gm", 0)]%string).
  { unfold tsf_midi_get_avail_outputs, string_list_append. simpl.
    by rewrite <- !app_assoc. }
  split; [reflexivity |]. split; [exact Heq |].
  rewrite Heq, map_app.
  repeat split; apply in_or_app; right; simpl; tauto.
Qed.

(** ** The window wrapper *)

(** C4.  [ui_window_win32_set_visible] does not pass its parameter on: the
    command given to [ShowWindow] is chosen by the outer [visible], so the
    call is the same for [true] and for [false].  With [visible] false a
    request to show the window hides it, and with [visible] true a request
    to hide it shows it. *)
Theorem ui_window_win32_set_visible_ignores_parameter :
  (forall visible window,
     Win32.ui_window_win32_set_visible visible window true
     = Win32.ui_window_win32_set_visible visible window false)
  /\ (forall window,
        Win32.ui_window_win32_set_visible false window true
        = [Win32.ShowWindow (Win32.hwnd window) Win32.SW_HIDE])
  /\ (forall window,
        Win32.ui_window_win32_set_visible true window false
        = [Win32.ShowWindow (Win32.hwnd window) Win32.SW_SHOWNORMAL]).
Proof. repeat split. Qed.

(** * Further properties of the driver *)

(** ** The shape of the calls of one event *)

Lemma land_0x7f_small x : 0 <= x <= 127 -> Z.land x 0x7f = x.
Proof. intros H. rewrite land_0x7f. apply Z.mod_small. lia. Qed.

Lemma pairwise_increasing_lookup l i j x y :
  pairwise_increasing l = true -> (i < j)%nat ->
  l !! i = Some x -> l !! j = Some y -> F32_ltb x y = true.
Proof.
  revert i j. induction l as [|a l IH]; intros i j Hall Hij Hx Hy; [done |].
  simpl in Hall. apply andb_true_iff in Hall as [Hhead Hrest].
  destruct j as [|j]; [lia |]. destruct i as [|i].
  - injection Hx as <-. rewrite forallb_forall in Hhead.
    apply Hhead. apply list_elem_of_In. by apply (list_elem_of_lookup_2 _ j).
  - apply (IH i j); [done | lia | done | done].
Qed.

Lemma velocity_table_ok : pairwise_increasing velocity_table = true.
Proof. vm_compute. reflexivity. Qed.

Lemma velocity_table_lookup p2 :
  0 <= p2 < 128 -> velocity_table !! Z.to_nat p2 = Some (velocity p2).
Proof.
  intros Hp. unfold velocity_table.
  rewrite list_lookup_fmap, lookup_seq_lt by lia.
  simpl. by rewrite Z2Nat.id by lia.
Qed.

Lemma velocity_increasing a b :
  0 <= a -> a < b -> b <= 127 -> F32_ltb (velocity a) (velocity b) = true.
Proof.
  intros Ha Hab Hb.
  apply (pairwise_increasing_lookup velocity_table (Z.to_nat a) (Z.to_nat b));
    [apply velocity_table_ok | lia | |]; apply velocity_table_lookup; lia.
Qed.

(** The switch makes no call, or one call: an engine call, addressed to
    the handle's instance, with arguments in the MIDI ranges. *)
Lemma switch_calls_shape h event status channel p1 p2 :
  0 <= channel <= 15 -> 0 <= p1 <= 127 -> 0 <= p2 <= 127 ->
  switch_calls h event status channel p1 p2 = []
  \/ exists c, switch_calls h event status channel p1 p2 = [c]
       /\ is_synth_call c = true
       /\ call_instance c = Some (instance h)
       /\ midi_range c.
Proof.
  intros Hch Hp1 Hp2. unfold switch_calls.
  destruct (status =? TSF_MIDI_PROGRAM_CHANGE).
  { right. eexists. split; [reflexivity |]. repeat split; try lia.
    destruct (channel =? 9); simpl; lia. }
  destruct (status =? TSF_MIDI_NOTE_ON).
  { right. eexists. split; [reflexivity |]. repeat split; try lia;
      by apply (velocity_range p2). }
  destruct (status =? TSF_MIDI_NOTE_OFF).
  { right. eexists. split; [reflexivity |]. repeat split; lia. }
  destruct (status =? TSF_MIDI_PITCH_BEND).
  { right. eexists. split; [reflexivity |].
    pose proof (pack14_range p2 p1 Hp2 Hp1) as Hr.
    rewrite int32_small by lia. repeat split; lia. }
  destruct (status =? TSF_MIDI_CONTROL_CHANGE).
  { right. eexists. split; [reflexivity |]. repeat split; lia. }
  destruct (status =? TSF_MIDI_SYSEX); [| by left].
  destruct (is_volume_sysex event); [| by left].
  right. eexists. split; [reflexivity |]. by repeat split.
Qed.

(** An accepted event on a live handle, with the calls of its switch. *)
Lemma tsf_midi_write_body HT s d h event :
  live s d h -> event_ok event -> 2 <= data_size event ->
  exists body,
    tsf_midi_write HT d event s = Done true (emit s (locked HT h body))
    /\ (body = []
        \/ exists c, body = [c] /\ is_synth_call c = true
             /\ call_instance c = Some (instance h) /\ midi_range c).
Proof.
  intros L Hok Hsz.
  destruct (event_ok_lookup event 0 Hok) as [d0 H0]; [lia |].
  destruct (event_ok_lookup event 1 Hok) as [d1 H1]; [lia |].
  eexists. split; [by apply (tsf_midi_write_live HT s d h event d0 d1) |].
  apply switch_calls_shape;
    [apply land_0x0f_range | apply land_0x7f_range | apply third_byte_range].
Qed.

(** ** Invariants of dispatch and rendering *)

(** X1.  Neither [tsf_midi_write] nor [tsf_synth] changes the heap: on a
    live handle and an event whose buffer holds the announced bytes they
    run to completion and leave the handle live, with the same block. *)
Theorem write_and_render_keep_handle HT s d h event buffer num_frames volume :
  live s d h -> event_ok event ->
  (exists r s', tsf_midi_write HT d event s = Done r s'
     /\ heap s' = heap s /\ live s' d h)
  /\ (exists s', tsf_synth HT d buffer num_frames volume s = Done tt s'
        /\ heap s' = heap s /\ live s' d h).
Proof.
  intros L Hok. split.
  - destruct (Z.lt_ge_cases (data_size event) 2) as [Hlt|Hge].
    + exists false, s. by rewrite tsf_midi_write_short.
    + destruct (tsf_midi_write_body HT s d h event L Hok Hge) as (body & Hrun & _).
      eexists true, _. split; [exact Hrun |]. split; [done | by apply live_emit].
  - eexists. split; [by apply tsf_synth_live |]. split; [done | by apply live_emit].
Qed.

Lemma write_and_render_keep_handle_witness :
  (exists r s', tsf_midi_write true 1024 note_on_event sample_state = Done r s'
     /\ heap s' = heap sample_state /\ live s' 1024 sample_handle)
  /\ (exists s', tsf_synth true 1024 2048 256 F32.one sample_state = Done tt s'
        /\ heap s' = heap sample_state /\ live s' 1024 sample_handle).
Proof.
  apply (write_and_render_keep_handle true sample_state 1024 sample_handle note_on_event).
  - exact sample_live.
  - unfold event_ok; simpl; lia.
Defined.

(** X2.  An accepted event makes at most one engine call, addressed to
    the handle's own instance.  A threaded build takes the handle's lock
    before it and releases it after it, also when no call is made; a build
    without threads makes no lock call. *)
Theorem write_one_call_in_critical_section HT s d h event :
  live s d h -> event_ok event -> 2 <= data_size event ->
  exists body,
    tsf_midi_write HT d event s
    = Done true (emit s ((if HT then [slock_lock (synth_lock h)] else [])
                         ++ body
                         ++ (if HT then [slock_unlock (synth_lock h)] else [])))
    /\ (length body <= 1)%nat
    /\ Forall (fun c => is_synth_call c = true /\ call_instance c = Some (instance h)) body.
Proof.
  intros L Hok Hsz.
  destruct (tsf_midi_write_body HT s d h event L Hok Hsz)
    as (body & Hrun & [-> | (c & -> & Hs & Hi & _)]).
  - exists []. split; [exact Hrun |]. split; [simpl; lia | constructor].
  - exists [c]. split; [exact Hrun |]. split; [simpl; lia |].
    constructor; [by split | constructor].
Qed.

Lemma write_one_call_in_critical_section_witness :
  exists body,
    tsf_midi_write true 1024 note_on_event sample_state
    = Done true (emit sample_state ([slock_lock 8192] ++ body ++ [slock_unlock 8192]))
    /\ (length body <= 1)%nat
    /\ Forall (fun c => is_synth_call c = true /\ call_instance c = Some 4096) body.
Proof.
  apply (write_one_call_in_critical_section true sample_state 1024 sample_handle
           note_on_event).
  - exact sample_live.
  - unfold event_ok; simpl; lia.
  - simpl; lia.
Defined.

(** X3.  Whatever bytes an event carries, the calls [tsf_midi_write]
    makes have arguments in the ranges of the MIDI protocol: channel 0 to
    15, data 0 to 127, pitch 0 to 16383, drum flag 0 or 1, velocity from
    0.0 to 1.0. *)
Theorem write_arguments_in_midi_range HT s d h event :
  live s d h -> event_ok event ->
  exists r new,
    tsf_midi_write HT d event s = Done r (emit s new)
    /\ Forall midi_range new.
Proof.
  intros L Hok.
  destruct (Z.lt_ge_cases (data_size event) 2) as [Hlt|Hge].
  { exists false, []. rewrite emit_nil, tsf_midi_write_short by done.
    split; [done | constructor]. }
  destruct (tsf_midi_write_body HT s d h event L Hok Hge)
    as (body & Hrun & Hbody).
  eexists true, _. split; [exact Hrun |].
  unfold locked. rewrite !Forall_app. split; [| split].
  - destruct HT; repeat constructor.
  - destruct Hbody as [-> | (c & -> & _ & _ & Hr)]; repeat constructor. exact Hr.
  - destruct HT; repeat constructor.
Qed.

Lemma write_arguments_in_midi_range_witness :
  exists r new,
    tsf_midi_write true 1024 pitch_bend_event sample_state = Done r (emit sample_state new)
    /\ Forall midi_range new.
Proof.
  apply (write_arguments_in_midi_range true sample_state 1024 sample_handle
           pitch_bend_event).
  - exact sample_live.
  - unfold event_ok; simpl; lia.
Defined.

(** ** The remaining cases of the switch *)

(** X4.  An event whose status nibble has no case in the switch is
    accepted and makes no engine call; a threaded build still takes and
    releases the lock.  Key Pressure and Channel Pressure, which the
    driver names, are among them. *)
Theorem unhandled_status_is_ignored HT s d h event d0 d1 :
  live s d h -> event_ok event -> 2 <= data_size event ->
  data event !! 0%nat = Some d0 -> data event !! 1%nat = Some d1 ->
  handled_status (Z.land d0 0xf0) = false ->
  tsf_midi_write HT d event s = Done true (emit s (locked HT h []))
  /\ synth_calls (locked HT h []) = []
  /\ handled_status TSF_MIDI_KEY_PRESSURE = false
  /\ handled_status TSF_MIDI_CHANNEL_PRESSURE = false.
Proof.
  intros L Hok Hsz H0 H1 Hst.
  split; [| split; [by destruct HT | by split]].
  rewrite (tsf_midi_write_live HT s d h event d0 d1) by done.
  unfold handled_status in Hst. unfold switch_calls.
  repeat (apply orb_false_iff in Hst as [Hst ?]).
  by repeat match goal with H : (_ =? _) = false |- _ => rewrite H; clear H end.
Qed.

Lemma unhandled_status_is_ignored_witness :
  tsf_midi_write true 1024 key_pressure_event sample_state
  = Done true (emit sample_state (locked true sample_handle []))
  /\ synth_calls (locked true sample_handle []) = []
  /\ handled_status TSF_MIDI_KEY_PRESSURE = false
  /\ handled_status TSF_MIDI_CHANNEL_PRESSURE = false.
Proof.
  apply (unhandled_status_is_ignored true sample_state 1024 sample_handle
           key_pressure_event 0xA0 60).
  - exact sample_live.
  - unfold event_ok; simpl; lia.
  - simpl; lia.
  - reflexivity.
  - reflexivity.
  - reflexivity.
Defined.

(** X5.  A Note Off event stops note [byte1 & 0x7F] on the channel of the
    status byte; the third byte, the release velocity, plays no part: an
    event without it, or with another one, makes the same call. *)
Theorem note_off_stops_note HT s d h event d0 d1 :
  live s d h -> event_ok event -> 2 <= data_size event ->
  data event !! 0%nat = Some d0 -> data event !! 1%nat = Some d1 ->
  Z.land d0 0xf0 = TSF_MIDI_NOTE_OFF ->
  tsf_midi_write HT d event s
  = Done true (emit s (locked HT h
      [tsf_channel_note_off (instance h) (Z.land d0 0x0f) (Z.land d1 0x7f)])).
Proof.
  intros L Hok Hsz H0 H1 Hst.
  rewrite (tsf_midi_write_live HT s d h event d0 d1) by done.
  unfold switch_calls. by rewrite Hst.
Qed.

Lemma note_off_stops_note_witness :
  tsf_midi_write true 1024 note_off_event sample_state
  = Done true (emit sample_state (locked true sample_handle
      [tsf_channel_note_off (instance sample_handle) 3 60])).
Proof.
  apply (note_off_stops_note true sample_state 1024 sample_handle note_off_event 0x83 60).
  - exact sample_live.
  - unfold event_ok; simpl; lia.
  - simpl; lia.
  - reflexivity.
  - reflexivity.
  - reflexivity.
Defined.

(** X6.  A Control Change event is forwarded to
    [tsf_channel_midi_control] with controller [byte1 & 0x7F] and value
    [byte2 & 0x7F] (0 without a third byte); data bytes that are already
    seven-bit values, such as controller 7 with value 100, arrive
    unchanged. *)
Theorem control_change_forwarded HT s d h event d0 d1 :
  live s d h -> event_ok event -> 2 <= data_size event ->
  data event !! 0%nat = Some d0 -> data event !! 1%nat = Some d1 ->
  Z.land d0 0xf0 = TSF_MIDI_CONTROL_CHANGE ->
  exists controller value,
    tsf_midi_write HT d event s
    = Done true (emit s (locked HT h
        [tsf_channel_midi_control (instance h) (Z.land d0 0x0f) controller value]))
    /\ controller = Z.land d1 0x7f
    /\ (0 <= d1 <= 127 -> controller = d1)
    /\ (forall d2, 3 <= data_size event -> data event !! 2%nat = Some d2 ->
          value = Z.land d2 0x7f /\ (0 <= d2 <= 127 -> value = d2))
    /\ (data_size event < 3 -> value = 0).
Proof.
  intros L Hok Hsz H0 H1 Hst.
  exists (Z.land d1 0x7f), (third_byte event). split.
  { rewrite (tsf_midi_write_live HT s d h event d0 d1) by done.
    unfold switch_calls. by rewrite Hst. }
  split; [done |]. split; [apply land_0x7f_small |]. split.
  - intros d2 H3 H2. rewrite (third_byte_present event d2) by done.
    split; [done | apply land_0x7f_small].
  - apply third_byte_absent.
Qed.

Lemma control_change_forwarded_witness :
  tsf_midi_write true 1024 control_change_event sample_state
  = Done true (emit sample_state (locked true sample_handle
      [tsf_channel_midi_control (instance sample_handle) 2 7 100])).
Proof.
  destruct (control_change_forwarded true sample_state 1024 sample_handle
              control_change_event 0xB2 7)
    as (controller & value & Hrun & _ & Hc & Hv & _).
  - exact sample_live.
  - unfold event_ok; simpl; lia.
  - simpl; lia.
  - reflexivity.
  - reflexivity.
  - reflexivity.
  - destruct (Hv 100) as (_ & Hval); [simpl; lia | reflexivity |].
    rewrite Hrun, Hc, Hval by lia. reflexivity.
Defined.

(** ** Reading the event *)

Lemma bind_pointwise {A B} (m1 m2 : M A) (k1 k2 : A -> M B) s :
  m1 s = m2 s -> (forall a s', k1 a s' = k2 a s') -> bind m1 k1 s = bind m2 k2 s.
Proof. intros Hm Hk. unfold bind. rewrite Hm. destruct (m2 s); [apply Hk | done]. Qed.

Lemma same_announced_lookup e1 e2 (i : nat) :
  same_announced_bytes e1 e2 -> Z.of_nat i < data_size e1 ->
  data e1 !! i = data e2 !! i.
Proof.
  intros [_ Htake] Hi.
  rewrite <- (lookup_take_lt (data e1) (Z.to_nat (data_size e1)) i) by lia.
  rewrite <- (lookup_take_lt (data e2) (Z.to_nat (data_size e1)) i) by lia.
  by rewrite Htake.
Qed.

Lemma same_announced_event_data e1 e2 (i : nat) :
  same_announced_bytes e1 e2 -> Z.of_nat i < data_size e1 ->
  event_data e1 i = event_data e2 i.
Proof.
  intros Hsame Hi. unfold event_data.
  by rewrite (same_announced_lookup e1 e2 i Hsame Hi).
Qed.

Lemma same_announced_sysex d e1 e2 s :
  same_announced_bytes e1 e2 -> event_ok e1 -> event_ok e2 ->
  sysex_case d e1 s = sysex_case d e2 s.
Proof.
  intros Hsame [_ Hl1] [_ Hl2]. pose proof Hsame as [Hsz _].
  unfold sysex_case. rewrite <- Hsz.
  destruct (Z.eqb_spec (data_size e1) 8) as [H8|_]; [| done].
  assert (Hbytes : event_bytes e1 1 4 = event_bytes e2 1 4).
  { unfold event_bytes.
    destruct (Nat.leb_spec (1 + 4) (length (data e1))) as [_|?]; [| lia].
    destruct (Nat.leb_spec (1 + 4) (length (data e2))) as [_|?]; [| lia].
    f_equal. apply list_eq. intros i.
    rewrite !lookup_take, !lookup_drop. case_decide; [| done].
    apply same_announced_lookup; [done | lia]. }
  rewrite Hbytes.
  rewrite (same_announced_event_data e1 e2 6 Hsame) by lia.
  rewrite (same_announced_event_data e1 e2 5 Hsame) by lia.
  done.
Qed.

(** X7.  [tsf_midi_write] reads no byte at or beyond [data_size]: two
    events that announce the same length and agree on the bytes below it
    are treated alike, whatever else their buffers hold. *)
Theorem write_reads_announced_bytes_only HT d e1 e2 s :
  same_announced_bytes e1 e2 -> event_ok e1 -> event_ok e2 ->
  tsf_midi_write HT d e1 s = tsf_midi_write HT d e2 s.
Proof.
  intros Hsame Hok1 Hok2. pose proof Hsame as [Hsz _].
  unfold tsf_midi_write. rewrite <- Hsz.
  destruct (Z.ltb_spec (data_size e1) 2) as [|Hge]; [done |].
  rewrite (same_announced_event_data e1 e2 0 Hsame) by lia.
  rewrite (same_announced_event_data e1 e2 1 Hsame) by lia.
  apply bind_pointwise; [done |]. intros d0 s0.
  apply bind_pointwise; [done |]. intros d1 s1.
  apply bind_pointwise.
  { destruct (Z.leb_spec 3 (data_size e1)); [| done].
    by rewrite (same_announced_event_data e1 e2 2 Hsame) by lia. }
  intros p2 s2.
  apply bind_pointwise; [done |]. intros _ s3.
  apply bind_pointwise; [| done].
  unfold dispatch.
  repeat match goal with
         | |- context [if (?x =? ?y)%Z then _ else _] => destruct (x =? y)%Z
         end;
    first [done | by apply same_announced_sysex].
Qed.

Lemma write_reads_announced_bytes_only_witness :
  same_announced_bytes note_on_event padded_note_on_event
  /\ tsf_midi_write true 1024 note_on_event sample_state
     = tsf_midi_write true 1024 padded_note_on_event sample_state.
Proof.
  assert (Hsame : same_announced_bytes note_on_event padded_note_on_event)
    by (split; reflexivity).
  split; [exact Hsame |].
  apply (write_reads_announced_bytes_only true 1024 note_on_event padded_note_on_event
           sample_state Hsame).
  - unfold event_ok; simpl; lia.
  - unfold event_ok; simpl; lia.
Defined.

(** ** Numbers *)

(** X8.  The pitch of a three-byte Pitch Bend event is
    [128 * (byte2 & 0x7F) + (byte1 & 0x7F)]: both data bytes can be read
    back from it, the low seven bits as remainder and the high seven as
    quotient by 128. *)
Theorem pitch_bend_round_trip HT s d h event d0 d1 d2 :
  live s d h -> event_ok event -> 3 <= data_size event ->
  data event !! 0%nat = Some d0 -> data event !! 1%nat = Some d1 ->
  data event !! 2%nat = Some d2 ->
  Z.land d0 0xf0 = TSF_MIDI_PITCH_BEND ->
  exists pitch,
    tsf_midi_write HT d event s
    = Done true (emit s (locked HT h
        [tsf_channel_set_pitchwheel (instance h) (Z.land d0 0x0f) pitch]))
    /\ pitch = 128 * Z.land d2 0x7f + Z.land d1 0x7f
    /\ pitch mod 128 = Z.land d1 0x7f
    /\ pitch / 128 = Z.land d2 0x7f.
Proof.
  intros L Hok Hsz H0 H1 H2 Hst.
  pose proof (land_0x7f_range d1) as Hr1. pose proof (land_0x7f_range d2) as Hr2.
  exists (128 * Z.land d2 0x7f + Z.land d1 0x7f). split.
  { rewrite (tsf_midi_write_live HT s d h event d0 d1) by (done || lia).
    unfold switch_calls. rewrite Hst. simpl.
    rewrite (third_byte_present event d2) by done.
    rewrite pack14 by lia. rewrite int32_small by lia.
    do 5 f_equal. lia. }
  split; [done |]. split.
  - rewrite Z.add_comm, Z.mul_comm, Z.mod_add by lia. apply Z.mod_small. lia.
  - rewrite Z.add_comm, Z.mul_comm, Z.div_add by lia.
    rewrite Z.div_small by lia. lia.
Qed.

Lemma pitch_bend_round_trip_witness :
  exists pitch,
    tsf_midi_write true 1024 pitch_bend_event sample_state
    = Done true (emit sample_state (locked true sample_handle
        [tsf_channel_set_pitchwheel (instance sample_handle) 0 pitch]))
    /\ pitch = 16383 /\ pitch mod 128 = 127 /\ pitch / 128 = 127.
Proof.
  apply (pitch_bend_round_trip true sample_state 1024 sample_handle pitch_bend_event
           0xE0 0x7F 0x7F).
  - exact sample_live.
  - unfold event_ok; simpl; lia.
  - simpl; lia.
  - reflexivity.
  - reflexivity.
  - reflexivity.
  - reflexivity.
Defined.

(** X9.  The velocity of a note grows strictly with the data byte: of
    two Note On events, the one with the larger [byte2 & 0x7F] starts its
    note with the larger velocity, so no two of the 128 values are merged
    by the single precision division. *)
Theorem note_on_velocity_increasing HT s d h e1 e2 a0 a1 a2 b0 b1 b2 :
  live s d h -> event_ok e1 -> event_ok e2 ->
  3 <= data_size e1 -> 3 <= data_size e2 ->
  data e1 !! 0%nat = Some a0 -> data e1 !! 1%nat = Some a1 -> data e1 !! 2%nat = Some a2 ->
  data e2 !! 0%nat = Some b0 -> data e2 !! 1%nat = Some b1 -> data e2 !! 2%nat = Some b2 ->
  Z.land a0 0xf0 = TSF_MIDI_NOTE_ON -> Z.land b0 0xf0 = TSF_MIDI_NOTE_ON ->
  Z.land a2 0x7f < Z.land b2 0x7f ->
  exists v1 v2,
    tsf_midi_write HT d e1 s
    = Done true (emit s (locked HT h
        [tsf_channel_note_on (instance h) (Z.land a0 0x0f) (Z.land a1 0x7f) v1]))
    /\ tsf_midi_write HT d e2 s
       = Done true (emit s (locked HT h
           [tsf_channel_note_on (instance h) (Z.land b0 0x0f) (Z.land b1 0x7f) v2]))
    /\ F32_ltb v1 v2 = true.
Proof.
  intros L Hok1 Hok2 Hs1 Hs2 A0 A1 A2 B0 B1 B2 Ha Hb Hlt.
  exists (velocity (Z.land a2 0x7f)), (velocity (Z.land b2 0x7f)).
  split; [| split].
  - rewrite (tsf_midi_write_live HT s d h e1 a0 a1) by (done || lia).
    unfold switch_calls. rewrite Ha. simpl.
    by rewrite (third_byte_present e1 a2).
  - rewrite (tsf_midi_write_live HT s d h e2 b0 b1) by (done || lia).
    unfold switch_calls. rewrite Hb. simpl.
    by rewrite (third_byte_present e2 b2).
  - pose proof (land_0x7f_range a2). pose proof (land_0x7f_range b2).
    apply velocity_increasing; lia.
Qed.

Lemma note_on_velocity_increasing_witness :
  exists v1 v2,
    tsf_midi_write true 1024 quiet_note_on_event sample_state
    = Done true (emit sample_state (locked true sample_handle
        [tsf_channel_note_on (instance sample_handle) 0 60 v1]))
    /\ tsf_midi_write true 1024 note_on_event sample_state
       = Done true (emit sample_state (locked true sample_handle
           [tsf_channel_note_on (instance sample_handle) 0 60 v2]))
    /\ F32_ltb v1 v2 = true.
Proof.
  apply (note_on_velocity_increasing true sample_state 1024 sample_handle
           quiet_note_on_event note_on_event 0x90 60 64 0x90 60 127).
  - exact sample_live.
  - unfold event_ok; simpl; lia.
  - unfold event_ok; simpl; lia.
  - simpl; lia.
  - simpl; lia.
  - reflexivity.
  - reflexivity.
  - reflexivity.
  - reflexivity.
  - reflexivity.
  - reflexivity.
  - reflexivity.
  - reflexivity.
  - reflexivity.
Defined.

(** ** The life of a handle *)

Lemma init_live HT env input o s :
  load_result env (sf2path env) <> C.NULL -> calloc_result env <> C.NULL ->
  exists s1,
    tsf_midi_init HT env input (Some o) s = Done (calloc_result env) s1
    /\ heap s1 = <[calloc_result env := init_block HT env]> (heap s)
    /\ calls s1 = calls s ++ init_calls HT env
    /\ live s1 (calloc_result env) (init_block HT env).
Proof.
  intros Hl Hc. eexists. split; [by apply tsf_midi_init_success |].
  split; [done |]. split; [done |]. split; [done |]. simpl. apply lookup_insert_eq.
Qed.

(** X10.  Initialisation followed by shutdown of the returned handle
    gives back everything: when [calloc] hands out an address that was
    not in use, the heap is as before, and the calls made are those of
    the initialisation followed by the closing of the instance it loaded,
    the freeing of the lock it created (threaded builds) and the freeing
    of the block. *)
Theorem init_then_free_round_trip HT env input o s :
  heap s !! calloc_result env = None ->
  load_result env (sf2path env) <> C.NULL -> calloc_result env <> C.NULL ->
  exists s1 s2,
    tsf_midi_init HT env input (Some o) s = Done (calloc_result env) s1
    /\ tsf_midi_free HT (calloc_result env) s1 = Done tt s2
    /\ heap s2 = heap s
    /\ calls s2
       = calls s ++ init_calls HT env
         ++ [tsf_close (load_result env (sf2path env))]
         ++ (if HT then [slock_free (slock_new_result env)] else [])
         ++ [free (calloc_result env)].
Proof.
  intros Hfresh Hl Hc.
  destruct (init_live HT env input o s Hl Hc) as (s1 & Hinit & Hheap & Hcalls & L).
  exists s1. eexists. split; [exact Hinit |].
  split; [by apply tsf_midi_free_live |]. simpl. split.
  - rewrite Hheap. by apply delete_insert_id.
  - rewrite Hcalls, <- app_assoc. unfold release_calls, init_block. simpl.
    by destruct HT.
Qed.

Lemma init_then_free_round_trip_witness :
  exists s1 s2,
    tsf_midi_init true sample_host None (Some "SF2"%string) (Build_state ∅ [])
    = Done 1024 s1
    /\ tsf_midi_free true 1024 s1 = Done tt s2
    /\ heap s2 = ∅
    /\ calls s2
       = [] ++ init_calls true sample_host
         ++ [tsf_close 4096] ++ [slock_free 8192] ++ [free 1024].
Proof.
  apply (init_then_free_round_trip true sample_host None "SF2"%string (Build_state ∅ [])).
  - reflexivity.
  - discriminate.
  - discriminate.
Defined.

(** X11.  The result of [calloc] is not checked: when the sound bank has
    been loaded and the allocation fails, [tsf_midi_init] does not return
    [NULL] but stores through the null pointer. *)
Theorem init_calloc_failure_not_handled HT env input o s :
  load_result env (sf2path env) <> C.NULL -> calloc_result env = C.NULL ->
  tsf_midi_init HT env input (Some o) s = Undefined NullDereference
  /\ forall s', tsf_midi_init HT env input (Some o) s <> Done C.NULL s'.
Proof.
  intros Hl Hc. rewrite tsf_midi_init_calloc_fails by done. by split.
Qed.

Lemma init_calloc_failure_not_handled_witness :
  tsf_midi_init true out_of_memory_host None (Some "SF2"%string) (Build_state ∅ [])
  = Undefined NullDereference
  /\ forall s',
       tsf_midi_init true out_of_memory_host None (Some "SF2"%string) (Build_state ∅ [])
       <> Done C.NULL s'.
Proof.
  apply (init_calloc_failure_not_handled true out_of_memory_host None "SF2"%string
           (Build_state ∅ [])).
  - discriminate.
  - reflexivity.
Defined.



(** ** Handles that are not live *)

Lemma deref_null s : deref C.NULL s = Undefined NullDereference.
Proof. reflexivity. Qed.


Lemma tsf_synth_dead HT d buffer num_frames volume s f :
  deref d s = Undefined f ->
  tsf_synth HT d buffer num_frames volume s = Undefined f.
Proof.
  intros Hdead. unfold tsf_synth, TSF_MIDI_SYNTH_LOCK. destruct HT.
  - apply bind_Undefined. by apply bind_Undefined.
  - unfold bind at 1, ret at 1. by apply bind_Undefined.
Qed.

Lemma sysex_case_dead d event s f :
  deref d s = Undefined f -> event_ok event ->
  sysex_case d event s = Done tt s \/ sysex_case d event s = Undefined f.
Proof.
  intros Hdead [_ Hlen]. unfold sysex_case.
  destruct (Z.eqb_spec (data_size event) 8) as [H8|_]; [| by left].
  unfold event_bytes.
  destruct (Nat.leb_spec (1 + 4) (length (data event))) as [_|?]; [| lia].
  rewrite (bind_Done (ret (take 4 (drop 1 (data event)))) _ s _ s eq_refl).
  destruct (C.memcmp (take 4 (drop 1 (data event))) volume_signature =? 0);
    simpl; [| by left]. right.
  destruct (lookup_lt_is_Some_2 (data event) 6) as [d6 H6]; [lia |].
  destruct (lookup_lt_is_Some_2 (data event) 5) as [d5 H5]; [lia |].
  unfold event_data. rewrite H6, H5.
  rewrite (bind_Done (ret d6) _ s d6 s eq_refl).
  rewrite (bind_Done (ret d5) _ s d5 s eq_refl).
  by apply bind_Undefined.
Qed.

Lemma dispatch_dead d event status channel p1 p2 s f :
  deref d s = Undefined f -> event_ok event ->
  dispatch d event status channel p1 p2 s = Done tt s
  \/ dispatch d event status channel p1 p2 s = Undefined f.
Proof.
  intros Hdead Hok. unfold dispatch.
  repeat match goal with
         | |- context [if (?x =? ?y)%Z then _ else _] => destruct (x =? y)%Z
         end;
    first [ by left
          | by right; apply bind_Undefined
          | by apply sysex_case_dead ].
Qed.

(** An accepted event, once its bytes are read. *)
Lemma tsf_midi_write_steps HT d event s d0 d1 :
  event_ok event -> 2 <= data_size event ->
  data event !! 0%nat = Some d0 -> data event !! 1%nat = Some d1 ->
  tsf_midi_write HT d event s
  = (exec TSF_MIDI_SYNTH_LOCK HT d in
     exec dispatch d event (Z.land d0 0xf0) (C.uint8 (Z.land d0 0x0f))
            (C.uint8 (Z.land d1 0x7f)) (third_byte event) in
     exec TSF_MIDI_SYNTH_UNLOCK HT d in
     ret true) s.
Proof.
  intros Hok Hge H0 H1. unfold tsf_midi_write.
  destruct (Z.ltb_spec (data_size event) 2) as [|_]; [lia |].
  unfold event_data at 1 2. rewrite H0, H1.
  rewrite (bind_Done (ret d0) _ s d0 s eq_refl).
  rewrite (bind_Done (ret d1) _ s d1 s eq_refl).
  erewrite bind_Done; [reflexivity |].
  unfold third_byte, event_data.
  destruct (Z.leb_spec 3 (data_size event)) as [H3|_]; [| done].
  destruct (event_ok_lookup event 2 Hok) as [b ->]; [lia | done].
Qed.

(** On a handle that cannot be read, [tsf_midi_write] either stops at
    the read or returns without a call. *)
Lemma tsf_midi_write_dead HT d event s f :
  deref d s = Undefined f -> event_ok event ->
  (exists r, tsf_midi_write HT d event s = Done r s)
  \/ tsf_midi_write HT d event s = Undefined f.
Proof.
  intros Hdead Hok.
  destruct (Z.lt_ge_cases (data_size event) 2) as [Hlt|Hge].
  { left. exists false. by apply tsf_midi_write_short. }
  destruct (event_ok_lookup event 0 Hok) as [d0 H0]; [lia |].
  destruct (event_ok_lookup event 1 Hok) as [d1 H1]; [lia |].
  rewrite (tsf_midi_write_steps HT d event s d0 d1) by done.
  unfold TSF_MIDI_SYNTH_LOCK, TSF_MIDI_SYNTH_UNLOCK. destruct HT.
  - right. apply bind_Undefined. by apply bind_Undefined.
  - rewrite (bind_Done (ret tt) _ s tt s eq_refl).
    destruct (dispatch_dead d event (Z.land d0 0xf0) (C.uint8 (Z.land d0 0x0f))
                (C.uint8 (Z.land d1 0x7f)) (third_byte event) s f Hdead Hok) as [Hd|Hd].
    + left. exists true. by rewrite (bind_Done _ _ _ _ _ Hd).
    + right. by apply bind_Undefined.
Qed.

Lemma tsf_midi_write_dead_threaded d event s f :
  deref d s = Undefined f -> event_ok event -> 2 <= data_size event ->
  tsf_midi_write true d event s = Undefined f.
Proof.
  intros Hdead Hok Hsz.
  destruct (event_ok_lookup event 0 Hok) as [d0 H0]; [lia |].
  destruct (event_ok_lookup event 1 Hok) as [d1 H1]; [lia |].
  rewrite (tsf_midi_write_steps true d event s d0 d1) by done.
  apply bind_Undefined. by apply bind_Undefined.
Qed.



(** X14.  Only [tsf_midi_free] tests its handle against [NULL].  With
    the null handle, [tsf_synth] dereferences it; [tsf_midi_write] still
    rejects a short event untouched, dereferences it for every accepted
    event in a threaded build, and in any build makes no call. *)
Theorem null_handle_is_not_checked HT s event buffer num_frames volume :
  event_ok event ->
  tsf_synth HT C.NULL buffer num_frames volume s = Undefined NullDereference
  /\ (data_size event < 2 -> tsf_midi_write HT C.NULL event s = Done false s)
  /\ (2 <= data_size event ->
        tsf_midi_write true C.NULL event s = Undefined NullDereference)
  /\ ((exists r, tsf_midi_write HT C.NULL event s = Done r s)
      \/ tsf_midi_write HT C.NULL event s = Undefined NullDereference).
Proof.
  intros Hok.
  split; [by apply tsf_synth_dead |].
  split; [apply tsf_midi_write_short |].
  split; [intros; by apply tsf_midi_write_dead_threaded |].
  by apply tsf_midi_write_dead.
Qed.

Lemma null_handle_is_not_checked_witness :
  tsf_synth true C.NULL 2048 256 F32.one sample_state = Undefined NullDereference
  /\ (data_size note_on_event < 2 ->
        tsf_midi_write true C.NULL note_on_event sample_state = Done false sample_state)
  /\ (2 <= data_size note_on_event ->
        tsf_midi_write true C.NULL note_on_event sample_state = Undefined NullDereference)
  /\ ((exists r, tsf_midi_write true C.NULL note_on_event sample_state = Done r sample_state)
      \/ tsf_midi_write true C.NULL note_on_event sample_state = Undefined NullDereference).
Proof.
  apply (null_handle_is_not_checked true sample_state note_on_event 2048 256 F32.one).
  unfold event_ok; simpl; lia.
Defined.
